(** * Wikipedia MCP client: a shallow embedding of [mcp_client.py]

    The client is an interactive shell around three things: a session to a
    remote tool server (prompts, resources, tools), a two-node LangGraph
    agent ([chat_node] and [tool_node]) whose message history is merged by
    [add_messages] and checkpointed by a [MemorySaver], and a command
    dispatcher ([main]).

    The embedding keeps the effects explicit.  A [World] carries what the
    process has printed, which remote requests it has issued, which agent
    invocations it has started, and the checkpoint store; a command is a
    function from a world to an [outcome] (a value or a raised exception)
    and a new world.  The remote server, the language model and the tools
    are collaborators: they are the fields of an [Env], and every theorem
    quantifies over them. *)

From stdpp Require Import base option list strings pretty gmap fin_maps.
From Stdlib Require Import Ascii Lia.

(** ** Python strings

    A Python [str] is modelled as a Rocq [string] whose characters are the
    code points below 256. *)

Module PyStr.

Definition code (c : ascii) : nat := nat_of_ascii c.

(** [str.isspace] on one code point: TAB..CR, FS..US, SPACE, NEL, NBSP. *)
Definition isspace (c : ascii) : bool :=
  let n := code c in
  (((9 <=? n) && (n <=? 13)) || ((28 <=? n) && (n <=? 32))
   || (n =? 133) || (n =? 160))%nat.

Fixpoint lstrip (s : string) : string :=
  match s with
  | String c s' => if isspace c then lstrip s' else s
  | EmptyString => EmptyString
  end.

Fixpoint rev_onto (s acc : string) : string :=
  match s with
  | String c s' => rev_onto s' (String c acc)
  | EmptyString => acc
  end.

Definition reverse (s : string) : string := rev_onto s "".

Definition rstrip (s : string) : string := reverse (lstrip (reverse s)).

(** [s.strip()] *)
Definition strip (s : string) : string := rstrip (lstrip s).

(** [str.lower] on one code point: A..Z, and the Latin-1 capitals. *)
Definition lower_char (c : ascii) : ascii :=
  let n := code c in
  if (((65 <=? n) && (n <=? 90))
      || ((192 <=? n) && (n <=? 222) && negb (n =? 215)))%nat
  then ascii_of_nat (n + 32) else c.

Fixpoint lower (s : string) : string :=
  match s with
  | String c s' => String (lower_char c) (lower s')
  | EmptyString => EmptyString
  end.

(** [s.startswith(p)] *)
Definition startswith (s p : string) : bool := String.prefix p s.

(** [sep.join(l)] *)
Fixpoint join (sep : string) (l : list string) : string :=
  match l with
  | [] => ""
  | [x] => x
  | x :: l' => x +:+ sep +:+ join sep l'
  end.

(** [str(n)] for a natural number: its decimal numeral. *)
Definition str_of_nat (n : nat) : string := pretty n.

Definition hex_digit (n : nat) : ascii :=
  if (n <? 10)%nat then ascii_of_nat (48 + n) else ascii_of_nat (87 + n).

(** [str.isprintable] on one code point below 256. *)
Definition isprintable (c : ascii) : bool :=
  let n := code c in
  (((32 <=? n) && (n <? 127)) || ((161 <=? n) && negb (n =? 173)))%nat.

Fixpoint contains (c : ascii) (s : string) : bool :=
  match s with
  | String c' s' => Ascii.eqb c c' || contains c s'
  | EmptyString => false
  end.

Definition backslash : ascii := ascii_of_nat 92.

(** One character of [repr(s)], between quotes [quote]. *)
Definition repr_char (quote c : ascii) : string :=
  let n := code c in
  if Ascii.eqb c quote || (n =? 92)%nat then String backslash (String c "")
  else if (n =? 9)%nat then String backslash "t"
  else if (n =? 10)%nat then String backslash "n"
  else if (n =? 13)%nat then String backslash "r"
  else if isprintable c then String c ""
  else String backslash
         (String (ascii_of_nat 120)
            (String (hex_digit (n / 16)) (String (hex_digit (n mod 16)) ""))).

Fixpoint repr_chars (quote : ascii) (s : string) : string :=
  match s with
  | String c s' => repr_char quote c +:+ repr_chars quote s'
  | EmptyString => EmptyString
  end.

(** [repr(s)] for a string: in single quotes, unless the string has a single
    quote and no double quote. *)
Definition repr (s : string) : string :=
  let quote :=
    if contains (ascii_of_nat 39) s && negb (contains (ascii_of_nat 34) s)
    then ascii_of_nat 34 else ascii_of_nat 39 in
  String quote (repr_chars quote s +:+ String quote "").

(** [enumerate(l, start)] *)
Fixpoint enumerate {A} (start : nat) (l : list A) : list (nat * A) :=
  match l with
  | [] => []
  | x :: l' => (start, x) :: enumerate (S start) l'
  end.

End PyStr.

(** The line feed and the double quote, for the literals that contain them. *)
Definition nl : string := String (ascii_of_nat 10) "".
Definition dq : string := String (ascii_of_nat 34) "".

(** ** Exceptions and outcomes *)

Inductive exn_kind : Type :=
| ConnectionError (class : string)  (* a remote call failed; its class *)
| ModelError (class : string)       (* the model endpoint failed; its class *)
| ValueError
| TypeError
| IndexError
| AttributeError
| EOFError
| GraphRecursionError.

Record exn : Type := Exn { exn_type : exn_kind; exn_str : string }.

Inductive outcome (A : Type) : Type :=
| Ret (a : A)
| Raise (e : exn).
(** [type(e).__name__] *)
Definition class_name (k : exn_kind) : string :=
  match k with
  | ConnectionError class => class
  | ModelError class => class
  | ValueError => "ValueError"
  | TypeError => "TypeError"
  | IndexError => "IndexError"
  | AttributeError => "AttributeError"
  | EOFError => "EOFError"
  | GraphRecursionError => "GraphRecursionError"
  end.

(** [repr(e)] for an exception built from one message. *)
Definition repr_exn (e : exn) : string :=
  class_name (exn_type e) +:+ "(" +:+ PyStr.repr (exn_str e) +:+ ")".

Arguments Ret {A} a.
Arguments Raise {A} e.

(** ** [shlex.split]

    POSIX mode, [whitespace_split] on, no comment characters: the reader of
    [shlex.shlex.read_token] as a transition function over its four states.
    Whitespace is space, TAB, CR and LF; the quotes are the single and the
    double quote; the escape is the backslash, and inside double quotes a
    backslash is kept unless it precedes a double quote or a backslash. *)

Module Shlex.

Inductive escaped_from : Type := FromWord | FromDQuote.

Inductive lex_state : Type :=
| Blank                          (* between tokens *)
| Word                           (* inside a token *)
| Quoted (q : ascii)             (* inside quotes opened by q *)
| Escape (back : escaped_from).  (* just after a backslash *)

Definition is_whitespace (c : ascii) : bool :=
  let n := PyStr.code c in
  ((n =? 32) || (n =? 9) || (n =? 13) || (n =? 10))%nat.

Definition is_quote (c : ascii) : bool :=
  let n := PyStr.code c in ((n =? 39) || (n =? 34))%nat.

Definition is_escape (c : ascii) : bool := (PyStr.code c =? 92)%nat.

Definition dquote : ascii := ascii_of_nat 34.

Definition snoc (tok : string) (c : ascii) : string := tok +:+ String c "".

(** [read st tok done s]: [tok] is the token being built, [done] the
    tokens already emitted (latest first), [s] the unread input. *)
Fixpoint read (st : lex_state) (tok : string) (done : list string)
    (s : string) : outcome (list string) :=
  match s with
  | EmptyString =>
      match st with
      | Blank => Ret (rev done)
      | Word => Ret (rev (tok :: done))
      | Quoted _ => Raise (Exn ValueError "No closing quotation")
      | Escape _ => Raise (Exn ValueError "No escaped character")
      end
  | String c s' =>
      match st with
      | Blank =>
          if is_whitespace c then read Blank "" done s'
          else if is_escape c then read (Escape FromWord) "" done s'
          else if is_quote c then read (Quoted c) "" done s'
          else read Word (String c "") done s'
      | Word =>
          if is_whitespace c then read Blank "" (tok :: done) s'
          else if is_quote c then read (Quoted c) tok done s'
          else if is_escape c then read (Escape FromWord) tok done s'
          else read Word (snoc tok c) done s'
      | Quoted q =>
          if Ascii.eqb c q then read Word tok done s'
          else if is_escape c && Ascii.eqb q dquote
               then read (Escape FromDQuote) tok done s'
          else read (Quoted q) (snoc tok c) done s'
      | Escape FromWord => read Word (snoc tok c) done s'
      | Escape FromDQuote =>
          if is_escape c || Ascii.eqb c dquote
          then read (Quoted dquote) (snoc tok c) done s'
          else read (Quoted dquote) (snoc (snoc tok (ascii_of_nat 92)) c) done s'
      end
  end.

Definition split (s : string) : outcome (list string) := read Blank "" [] s.

End Shlex.

(** ** Data model *)

(** A tool-invocation request inside an assistant message. *)
Record ToolCall : Type := mkToolCall {
  tc_name : string;
  tc_args : string;
  tc_id   : string
}.

Inductive Role : Type := SystemRole | HumanRole | AIRole | ToolRole.

#[global] Instance Role_eq_dec : EqDecision Role.
Proof. solve_decision. Defined.

(** [AnyMessage].  [msg_id] is the identifier [add_messages] merges on; a
    message built by this program starts without one.  Identifiers are
    drawn from a counter of the world, which stands for [uuid4]. *)
Record Message : Type := mkMessage {
  msg_role         : Role;
  msg_content      : string;
  msg_tool_calls   : list ToolCall;      (* empty unless the role is AI *)
  msg_tool_call_id : option string;      (* set on tool results *)
  msg_id           : option nat
}.

Definition HumanMessage (content : string) : Message :=
  mkMessage HumanRole content [] None None.

Definition SystemMessage (content : string) : Message :=
  mkMessage SystemRole content [] None None.

Definition ToolMessage (content call_id : string) : Message :=
  mkMessage ToolRole content [] (Some call_id) None.

(** What the model endpoint returns: text and, possibly, tool requests. *)
Record AIReply : Type := mkAIReply {
  ai_content    : string;
  ai_tool_calls : list ToolCall
}.

Definition AIMessage (r : AIReply) : Message :=
  mkMessage AIRole (ai_content r) (ai_tool_calls r) None None.

(** A prompt as listed by the server: a name and its declared arguments.
    The argument list is optional: a server may leave it out, and the
    prompt then arrives with [arguments = None]. *)
Record PromptArgument : Type := mkPromptArgument { pa_name : string }.

Record Prompt : Type := mkPrompt {
  p_name      : string;
  p_arguments : option (list PromptArgument)
}.

(** Content of a rendered prompt message: text, or an object of another
    class (image, audio, embedded resource), which has no [text] attribute. *)
Inductive Content : Type :=
| TextContent (text : string)
| OtherContent (class : string).

Record PromptMessage : Type := mkPromptMessage { pm_content : Content }.

Record Resource : Type := mkResource {
  r_name : string;
  r_uri  : string
}.

(** A block returned by [read_resource]: only text blocks have [text]. *)
Inductive ResourceContents : Type :=
| TextResourceContents (text : string)
| BlobResourceContents (blob : string).

(** The requests the client sends over the session. *)
Inductive RemoteCall : Type :=
| CallInitialize
| CallListTools
| CallListPrompts
| CallGetPrompt (name : string) (arguments : gmap string string)
| CallListResources
| CallReadResource (uri : string)
| CallTool (name args : string).

(** [Messages]: what may sit under the key [messages] of an input or of a
    node's return value: a string, one message, or a list of messages. *)
Inductive Messages : Type :=
| OneStr (s : string)
| OneMessage (m : Message)
| ManyMessages (l : list Message).

(** One entry per call of [agent.ainvoke]: the thread id of its config and
    the input. *)
Record Invocation : Type := mkInvocation {
  inv_thread : string;
  inv_input  : Messages
}.

(** ** The world *)

Record World : Type := mkWorld {
  w_out     : list string;                  (* lines printed, oldest first *)
  w_calls   : list RemoteCall;              (* requests sent, oldest first *)
  w_invokes : list Invocation;              (* agent invocations started *)
  w_model   : nat;                          (* model calls made *)
  w_store   : gmap string (list Message);   (* the MemorySaver *)
  w_next_id : nat                           (* next fresh message id *)
}.

Definition init_world : World := mkWorld [] [] [] 0 ∅ 0.

(** The collaborators.  Their answers may change over the session, so the
    server's are indexed by the number of requests sent before, and the
    model's by the number of model calls made before. *)
Record Env : Type := mkEnv {
  srv_initialize     : outcome unit;
  srv_list_tools     : nat → outcome (list string);
  srv_list_prompts   : nat → outcome (list Prompt);
  srv_get_prompt     : nat → string → gmap string string → outcome (list PromptMessage);
  srv_list_resources : nat → outcome (list Resource);
  srv_read_resource  : nat → string → outcome (list ResourceContents);
  srv_call_tool      : nat → string → string → outcome string;
  model_reply        : nat → list Message → outcome AIReply
}.

(** ** Commands: state and exceptions *)

Definition M (A : Type) : Type := World → outcome A * World.

Definition ret {A} (a : A) : M A := λ w, (Ret a, w).

Definition raise {A} (e : exn) : M A := λ w, (Raise e, w).

Definition bind {A B} (c : M A) (k : A → M B) : M B := λ w,
  match c w with
  | (Ret a, w') => k a w'
  | (Raise e, w') => (Raise e, w')
  end.

(** [try: c except Exception as e: h e] *)
Definition try_except {A} (c : M A) (h : exn → M A) : M A := λ w,
  match c w with
  | (Ret a, w') => (Ret a, w')
  | (Raise e, w') => h e w'
  end.

Notation "'let!' x ':=' c 'in' k" := (bind c (λ x, k))
  (at level 10, x name, c at level 100, k at level 200).
Notation "c ;;; k" := (bind c (λ _, k))
  (at level 100, k at level 200, right associativity).

Definition lift {A} (o : outcome A) : M A := λ w, (o, w).

(** The world after a line is printed, and after a request is sent. *)
Definition printed (s : string) (w : World) : World :=
  mkWorld (w_out w ++ [s]) (w_calls w) (w_invokes w) (w_model w)
    (w_store w) (w_next_id w).

Definition sent (c : RemoteCall) (w : World) : World :=
  mkWorld (w_out w) (w_calls w ++ [c]) (w_invokes w) (w_model w)
    (w_store w) (w_next_id w).

(** [print(s)] *)
Definition print (s : string) : M unit := λ w, (Ret tt, printed s w).

(** Send a request and wait for the answer. *)
Definition remote {A} (c : RemoteCall) (answer : nat → outcome A) : M A := λ w,
  (answer (length (w_calls w)), sent c w).

(** Ask the model. *)
Definition ask_model {A} (answer : nat → outcome A) : M A := λ w,
  (answer (w_model w),
   mkWorld (w_out w) (w_calls w) (w_invokes w) (S (w_model w))
     (w_store w) (w_next_id w)).

Definition log_invocation (i : Invocation) : M unit := λ w,
  (Ret tt, mkWorld (w_out w) (w_calls w) (w_invokes w ++ [i]) (w_model w)
             (w_store w) (w_next_id w)).

(** The checkpointer: the latest state saved under a thread id. *)
Definition get_checkpoint (thread : string) : M (list Message) := λ w,
  (Ret (default [] (w_store w !! thread)), w).

Definition put_checkpoint (thread : string) (state : list Message) : M unit := λ w,
  (Ret tt, mkWorld (w_out w) (w_calls w) (w_invokes w) (w_model w)
             (<[thread := state]> (w_store w)) (w_next_id w)).

(** ** The agent graph

    [create_graph] builds the graph out of LangGraph parts: the reducer
    [add_messages], the router [tools_condition], a [ToolNode], and a
    [MemorySaver] as checkpointer.  They are modelled as the library
    documents them: the reducer gives an id to every message that has none,
    replaces a message of the history by a new one with the same id and
    appends the others; the router looks at the last message; the tool node
    answers every request of the latest assistant message, in order, and
    turns a failing tool into an error message built from [repr] of the
    exception; a checkpoint is saved after every superstep, and an
    invocation is cut after [recursion_limit] supersteps. *)

(** [class State(TypedDict): messages: Annotated[List[AnyMessage], add_messages]] *)
Record State : Type := mkState { messages : Messages }.

(** Coercion of a [Messages] value to a list of messages. *)
Definition convert_to_messages (x : Messages) : list Message :=
  match x with
  | OneStr s => [HumanMessage s]
  | OneMessage m => [m]
  | ManyMessages l => l
  end.

Definition with_id (i : nat) (m : Message) : Message :=
  mkMessage (msg_role m) (msg_content m) (msg_tool_calls m)
    (msg_tool_call_id m) (Some i).

(** Give a fresh id to every message that has none. *)
Fixpoint assign_ids (next : nat) (l : list Message) : list Message * nat :=
  match l with
  | [] => ([], next)
  | m :: l' =>
      match msg_id m with
      | Some _ => let '(r, n) := assign_ids next l' in (m :: r, n)
      | None => let '(r, n) := assign_ids (S next) l' in (with_id next m :: r, n)
      end
  end.

(** [merged_by_id.get(m.id)]: the index recorded for an id; where an id
    occurs twice the dictionary keeps the later index. *)
Fixpoint index_of_id (i : option nat) (l : list Message) : option nat :=
  match l with
  | [] => None
  | m :: l' =>
      match index_of_id i l' with
      | Some k => Some (S k)
      | None => if bool_decide (msg_id m = i) then Some 0 else None
      end
  end.

(** One round of the merge loop: replace the message with the same id, or
    append. *)
Definition merge_one (merged : list Message) (m : Message) : list Message :=
  match index_of_id (msg_id m) merged with
  | Some k => <[k := m]> merged
  | None => merged ++ [m]
  end.

Definition merge (left right : list Message) : list Message :=
  foldl merge_one left right.

(** [add_messages(left, right)], the reducer of [State.messages]. *)
Definition add_messages (left : list Message) (right : Messages) : M (list Message) := λ w,
  let '(l, n1) := assign_ids (w_next_id w) left in
  let '(r, n2) := assign_ids n1 (convert_to_messages right) in
  (Ret (merge l r),
   mkWorld (w_out w) (w_calls w) (w_invokes w) (w_model w) (w_store w) n2).

Inductive Node : Type := START | CHAT_NODE | TOOL_NODE | END.

#[global] Instance Node_eq_dec : EqDecision Node.
Proof. solve_decision. Defined.

(** The default bound on the supersteps of one invocation, and what the
    library says when it is reached. *)
Definition recursion_limit : nat := 25.

Definition recursion_limit_message : string :=
  "Recursion limit of " +:+ PyStr.str_of_nat recursion_limit
  +:+ " reached without hitting a stop condition. You can increase the limit"
  +:+ " by setting the `recursion_limit` config key." +:+ nl
  +:+ "For troubleshooting, visit: https://python.langchain.com/docs/"
  +:+ "troubleshooting/errors/GRAPH_RECURSION_LIMIT".

Definition system_prompt : string :=
  "You are a helpful assistant that uses tools to search Wikipedia.".

Section Agent.

Variable env : Env.

(** [chat_llm = prompt_template | llm_with_tools] *)
Definition chat_llm_invoke (msgs : Messages) : M Message :=
  let! reply := ask_model (λ n,
      model_reply env n (SystemMessage system_prompt :: convert_to_messages msgs)) in
  ret (AIMessage reply).

(** [[
    def chat_node(state: State) -> State:
        state["messages"] = chat_llm.invoke({"messages": state["messages"]})
        return state
    ]] *)
Definition chat_node (state : State) : M State :=
  let! m := chat_llm_invoke (messages state) in
  ret (mkState (OneMessage m)).

(** [tools_condition]: look at the last message of the state. *)
Definition tools_condition (state : list Message) : outcome string :=
  match last state with
  | None => Raise (Exn ValueError "No messages found in input state to tool_edge")
  | Some ai_message =>
      match msg_role ai_message, msg_tool_calls ai_message with
      | AIRole, _ :: _ => Ret "tools"
      | _, _ => Ret "__end__"
      end
  end.

(** The path map of the conditional edge out of [chat_node]. *)
Definition path_map (key : string) : outcome Node :=
  if bool_decide (key = "tools") then Ret TOOL_NODE
  else if bool_decide (key = "__end__") then Ret END
  else Raise (Exn ValueError "unknown branch").

(** The tools loaded at start-up, by name. *)
Variable tools : list string.

(** One request of a [ToolNode]: an unknown name or a failing tool gives
    an error message as the tool result; nothing is raised. *)
Definition run_one (call : ToolCall) : M Message :=
  if bool_decide (tc_name call ∈ tools) then
    try_except
      (let! content := remote (CallTool (tc_name call) (tc_args call))
                         (λ n, srv_call_tool env n (tc_name call) (tc_args call)) in
       ret (ToolMessage content (tc_id call)))
      (λ e, ret (ToolMessage
                   ("Error: " +:+ repr_exn e +:+ nl +:+ " Please fix your mistakes.")
                   (tc_id call)))
  else
    ret (ToolMessage
           ("Error: " +:+ tc_name call +:+ " is not a valid tool, try one of ["
            +:+ PyStr.join ", " tools +:+ "].")
           (tc_id call)).

Fixpoint run_all (calls : list ToolCall) : M (list Message) :=
  match calls with
  | [] => ret []
  | c :: calls' =>
      let! m := run_one c in
      let! ms := run_all calls' in
      ret (m :: ms)
  end.

(** [next(m for m in reversed(messages) if isinstance(m, AIMessage))] *)
Definition latest_ai_message (msgs : list Message) : option Message :=
  List.find (λ m, bool_decide (msg_role m = AIRole)) (reverse msgs).

(** [ToolNode(tools=tools)]: run, in order, the requests of the latest
    assistant message of the state. *)
Definition tool_node (state : State) : M State :=
  match latest_ai_message (convert_to_messages (messages state)) with
  | Some m =>
      let! outputs := run_all (msg_tool_calls m) in
      ret (mkState (ManyMessages outputs))
  | None => raise (Exn ValueError "No AIMessage found in input")
  end.

(** The edges of the graph:
    [[
    graph.add_edge(START, "chat_node")
    graph.add_conditional_edges("chat_node", tools_condition,
                                {"tools": "tool_node", "__end__": END})
    graph.add_edge("tool_node", "chat_node")
    ]] *)
Definition next_node (n : Node) (state : list Message) : outcome Node :=
  match n with
  | START => Ret CHAT_NODE
  | CHAT_NODE =>
      match tools_condition state with
      | Ret key => path_map key
      | Raise e => Raise e
      end
  | TOOL_NODE => Ret CHAT_NODE
  | END => Ret END
  end.

Definition run_node (n : Node) (state : list Message) : M State :=
  match n with
  | CHAT_NODE => chat_node (mkState (ManyMessages state))
  | TOOL_NODE => tool_node (mkState (ManyMessages state))
  | START | END => ret (mkState (ManyMessages []))
  end.

(** One superstep: run the node, merge what it returns into the channel
    with the reducer, save a checkpoint, follow the outgoing edge. *)
Definition graph_step (thread : string) (n : Node) (state : list Message)
    : M (Node * list Message) :=
  let! update := run_node n state in
  let! state' := add_messages state (messages update) in
  put_checkpoint thread state' ;;;
  let! n' := lift (next_node n state') in
  ret (n', state').

Fixpoint run_graph (fuel : nat) (thread : string) (n : Node)
    (state : list Message) : M (list Message) :=
  match n with
  | END => ret state
  | _ =>
      match fuel with
      | 0 => raise (Exn GraphRecursionError recursion_limit_message)
      | S fuel' =>
          let! r := graph_step thread n state in
          run_graph fuel' thread r.1 r.2
      end
  end.

(** [agent.ainvoke({"messages": input}, config={"configurable":
    {"thread_id": thread}})] on the graph compiled with a [MemorySaver]. *)
Definition ainvoke (input : Messages) (thread : string) : M (list Message) :=
  log_invocation (mkInvocation thread input) ;;;
  let! saved := get_checkpoint thread in
  let! state := add_messages saved input in
  put_checkpoint thread state ;;;
  run_graph recursion_limit thread CHAT_NODE state.

End Agent.

(** ** The commands of the shell *)

Definition for_each {A} (l : list A) (body : A → M unit) : M unit :=
  foldr (λ x k, body x ;;; k) (ret tt) l.

(** [l[0]] and [l[-1]] *)
Definition first_item {A} (l : list A) : M A :=
  match head l with
  | Some x => ret x
  | None => raise (Exn IndexError "list index out of range")
  end.

Definition last_item {A} (l : list A) : M A :=
  match last l with
  | Some x => ret x
  | None => raise (Exn IndexError "list index out of range")
  end.

(** [content.text] *)
Definition text_of (c : Content) : M string :=
  match c with
  | TextContent t => ret t
  | OtherContent class =>
      raise (Exn AttributeError
               ("'" +:+ class +:+ "' object has no attribute 'text'"))
  end.

(** [len(x)] where [x] may be [None]: the list when there is one. *)
Definition len_checked {A} (x : option (list A)) : M (list A) :=
  match x with
  | Some l => ret l
  | None => raise (Exn TypeError "object of type 'NoneType' has no len()")
  end.

(** [{arg.name: val for arg, val in zip(arguments, args)}] *)
Definition bind_arguments (arguments : list PromptArgument) (args : list string)
    : gmap string string :=
  foldl (λ d av, <[pa_name av.1 := av.2]> d) ∅ (zip arguments args).

(** One entry of the comprehension below: [str(i + 1): r.name]. *)
Definition add_entry (d : gmap string string) (ir : nat * Resource)
    : gmap string string :=
  <[PyStr.str_of_nat (ir.1 + 1) := r_name ir.2]> d.

(** [{str(i + 1): r.name for i, r in enumerate(resources)}] *)
Definition resource_map (resources : list Resource) : gmap string string :=
  foldl add_entry ∅ (PyStr.enumerate 0 resources).

(** Lines 120 to 124 of [handle_resource]: from the identifier typed by
    the user to the resource that is read.
    [[
    resource_map = {str(i + 1): r.name for i, r in enumerate(resources)}
    resource_name = resource_map.get(resource_id, resource_id)
    match = next((r for r in resources if r.name == resource_name), None)
    ]] *)
Definition resolve_resource (resources : list Resource) (resource_id : string)
    : option Resource :=
  let resource_name := default resource_id (resource_map resources !! resource_id) in
  List.find (λ r, bool_decide (r_name r = resource_name)) resources.

(** The compiled graph: the tools its [ToolNode] was built with. *)
Record Agent : Type := mkAgent { agent_tools : list string }.

Section Shell.

Variable env : Env.

Definition list_prompts : M unit :=
  let! prompts := remote CallListPrompts (srv_list_prompts env) in
  match prompts with
  | [] => print "No prompts found on the server."
  | _ :: _ =>
      print (nl +:+ "Available Prompts and Argument Structure:") ;;;
      for_each prompts (λ p,
        print (nl +:+ "Prompt: " +:+ p_name p) ;;;
        match p_arguments p with
        | Some (_ :: _ as arguments) =>
            for_each arguments (λ arg, print ("  - " +:+ pa_name arg))
        | Some [] | None => print "  - No arguments required."
        end) ;;;
      print (nl +:+ "Use: /prompt <prompt_name> " +:+ dq +:+ "arg1" +:+ dq
             +:+ " " +:+ dq +:+ "arg2" +:+ dq +:+ " ...")
  end.

Definition handle_prompt (tools : list string) (command : string)
    (agent : Agent) : M unit :=
  let! parts := lift (Shlex.split (PyStr.strip command)) in
  match parts with
  | _ :: prompt_name :: args =>
      try_except
        (let! prompts := remote CallListPrompts (srv_list_prompts env) in
         match List.find (λ p, bool_decide (p_name p = prompt_name)) prompts with
         | None => print ("Prompt '" +:+ prompt_name +:+ "' not found.")
         | Some match_ =>
             let! arguments := len_checked (p_arguments match_) in
             if bool_decide (length args ≠ length arguments) then
               let expected := PyStr.join ", " (pa_name <$> arguments) in
               print ("Expected " +:+ PyStr.str_of_nat (length arguments)
                      +:+ " arguments: " +:+ expected)
             else
               let arg_values := bind_arguments arguments args in
               let! response := remote (CallGetPrompt prompt_name arg_values)
                   (λ n, srv_get_prompt env n prompt_name arg_values) in
               let! first := first_item response in
               let! prompt_text := text_of (pm_content first) in
               let! agent_response :=
                 ainvoke env (agent_tools agent)
                   (ManyMessages [HumanMessage prompt_text]) "wiki-session" in
               print (nl +:+ "=== Prompt Result ===") ;;;
               let! answer := last_item agent_response in
               print (msg_content answer)
         end)
        (λ e, print ("Prompt invocation failed: " +:+ exn_str e))
  | _ => print ("Usage: /prompt <name> " +:+ dq +:+ "args>" +:+ dq)
  end.

Definition list_resources : M unit :=
  try_except
    (let! resources := remote CallListResources (srv_list_resources env) in
     match resources with
     | [] => print "No resources found on the server."
     | _ :: _ =>
         print (nl +:+ "Available Resources:") ;;;
         for_each (PyStr.enumerate 1 resources) (λ ir,
           print ("[" +:+ PyStr.str_of_nat ir.1 +:+ "] " +:+ r_name ir.2)) ;;;
         print (nl +:+ "Use: /resource <name> to view its content.")
     end)
    (λ e, print ("Failed to list resources: " +:+ exn_str e)).

Definition handle_resource (command : string) : M unit :=
  let! parts := lift (Shlex.split (PyStr.strip command)) in
  match parts with
  | _ :: resource_id :: _ =>
      try_except
        (let! resources := remote CallListResources (srv_list_resources env) in
         match resolve_resource resources resource_id with
         | None => print ("Resource '" +:+ resource_id +:+ "' not found.")
         | Some match_ =>
             let! contents := remote (CallReadResource (r_uri match_))
                 (λ n, srv_read_resource env n (r_uri match_)) in
             for_each contents (λ content,
               match content with
               | TextResourceContents text =>
                   print (nl +:+ "=== Resource Text ===") ;;;
                   print text
               | BlobResourceContents _ => ret tt
               end)
         end)
        (λ e, print ("Resource fetch failed: " +:+ exn_str e))
  | _ => print "Usage: /resource <name>"
  end.

(** [create_graph]: load the tools and compile the graph around them. *)
Definition create_graph : M Agent :=
  let! tools := remote CallListTools (srv_list_tools env) in
  ret (mkAgent tools).

(** An ordinary conversational turn: lines 214 to 221 of [main]. *)
Definition chat_turn (agent : Agent) (user_input : string) : M unit :=
  try_except
    (let! response :=
       ainvoke env (agent_tools agent) (OneStr user_input) "wiki-session" in
     let! answer := last_item response in
     print ("AI: " +:+ msg_content answer))
    (λ e, print ("Error: " +:+ exn_str e)).

Definition is_exit (user_input : string) : bool :=
  bool_decide (PyStr.lower user_input ∈ ["exit"; "quit"; "q"]).

(** The [while True] loop of [main], over the lines the user will type.
    [input] raises [EOFError] once they are used up; the prompt text it
    writes is not recorded. *)
Fixpoint interactive_loop (tools : list string) (agent : Agent)
    (lines : list string) : M unit :=
  match lines with
  | [] => raise (Exn EOFError "EOF when reading a line")
  | line :: lines' =>
      let user_input := PyStr.strip line in
      if is_exit user_input then ret tt
      else if PyStr.startswith user_input "/prompts" then
        list_prompts ;;; interactive_loop tools agent lines'
      else if PyStr.startswith user_input "/prompt" then
        handle_prompt tools user_input agent ;;; interactive_loop tools agent lines'
      else if PyStr.startswith user_input "/resources" then
        list_resources ;;; interactive_loop tools agent lines'
      else if PyStr.startswith user_input "/resource" then
        handle_resource user_input ;;; interactive_loop tools agent lines'
      else
        chat_turn agent user_input ;;; interactive_loop tools agent lines'
  end.

Definition banner : list string :=
  [ "Wikipedia MCP agent is ready.";
    "Type a question or use the following templates:";
    "  /prompts                - to list available prompts";
    "  /prompt <name> " +:+ dq +:+ "args" +:+ dq +:+ ".  - to run a specific prompt";
    "  /resources              - to list available resources";
    "  /resource <name>        - to run a specific resource" ].

Definition main (lines : list string) : M unit :=
  remote CallInitialize (λ _, srv_initialize env) ;;;
  let! tools := remote CallListTools (srv_list_tools env) in
  let! agent := create_graph in
  for_each banner print ;;;
  interactive_loop tools agent lines.

End Shell.

(** ** A concrete session, for the examples

    A server with one prompt, three resources and one tool, and a model
    that asks for a search (and for a tool that does not exist) on its first
    call and answers on the later ones. *)

Module Example.

Definition prompts : list Prompt :=
  [mkPrompt "summarize" (Some [mkPromptArgument "topic"])].

Definition resources : list Resource :=
  [mkResource "intro" "wiki://intro";
   mkResource "history" "wiki://history";
   mkResource "links" "wiki://links"].

Definition first_request : AIReply :=
  mkAIReply "" [mkToolCall "search" "capital of France" "call-1";
                mkToolCall "lookup" "France" "call-2"].

Definition env : Env :=
  mkEnv (Ret tt)
    (λ _, Ret ["search"])
    (λ _, Ret prompts)
    (λ _ name arguments,
       Ret [mkPromptMessage
              (TextContent ("Summarize " +:+ default "" (arguments !! "topic")))])
    (λ _, Ret resources)
    (λ _ uri, Ret [TextResourceContents ("text of " +:+ uri);
                   BlobResourceContents "0000"])
    (λ _ name args, Ret ("snippet about " +:+ args))
    (λ n _, if bool_decide (n = 0) then Ret first_request
            else Ret (mkAIReply "Paris" [])).

Definition agent : Agent := mkAgent ["search"].

(** The same server with another resource listing. *)
Definition env_listing (rs : list Resource) : Env :=
  mkEnv (srv_initialize env) (srv_list_tools env) (srv_list_prompts env)
    (srv_get_prompt env) (λ _, Ret rs) (srv_read_resource env)
    (srv_call_tool env) (model_reply env).

(** The same server with another prompt listing. *)
Definition env_prompts (ps : list Prompt) : Env :=
  mkEnv (srv_initialize env) (srv_list_tools env) (λ _, Ret ps)
    (srv_get_prompt env) (srv_list_resources env) (srv_read_resource env)
    (srv_call_tool env) (model_reply env).

(** The same server once the connection is lost after start-up: every
    request fails, and so does the model endpoint. *)
Definition closed : exn :=
  Exn (ConnectionError "McpError") "Connection closed".

Definition env_down : Env :=
  mkEnv (Ret tt) (λ _, Ret ["search"])
    (λ _, Raise closed) (λ _ _ _, Raise closed)
    (λ _, Raise closed) (λ _ _, Raise closed) (λ _ _ _, Raise closed)
    (λ _ _, Raise (Exn (ModelError "APIConnectionError")
                     "model endpoint unreachable")).

(** The history after the user has asked a question, then after the model
    has asked for its tools. *)
Definition question : Message :=
  with_id 0 (HumanMessage "What is the capital of France?").

Definition request : Message := with_id 1 (AIMessage first_request).

Definition asked : World :=
  mkWorld [] [] [mkInvocation "wiki-session" (OneStr "What is the capital of France?")]
    0 {[ "wiki-session" := [question] ]} 1.

Definition requested : World :=
  mkWorld [] [] [mkInvocation "wiki-session" (OneStr "What is the capital of France?")]
    1 {[ "wiki-session" := [question; request] ]} 2.

End Example.

(** ** Vocabulary of the statements *)

(** The history saved under a thread id; empty before the first turn. *)
Definition history (thread : string) (w : World) : list Message :=
  default [] (w_store w !! thread).

(** Every message of [l] has an id, and it is below [n]. *)
Definition ids_below (n : nat) (l : list Message) : Prop :=
  Forall (λ m, ∃ i, msg_id m = Some i ∧ i < n) l.

(** No message of [l] has an id yet. *)
Definition unstamped (l : list Message) : Prop :=
  Forall (λ m, msg_id m = None) l.

(** The messages of [l] with the ids [n], [n + 1], ... *)
Fixpoint stamp (n : nat) (l : list Message) : list Message :=
  match l with
  | [] => []
  | m :: l' => with_id n m :: stamp (S n) l'
  end.

(** The saved histories only hold ids this world has already handed out. *)
Definition wf_world (w : World) : Prop :=
  ∀ thread l, w_store w !! thread = Some l → ids_below (w_next_id w) l.

(** The world after a model call, some fresh ids and a checkpoint. *)
Definition after_chat_step (thread : string) (state' : list Message) (w : World)
    : World :=
  mkWorld (w_out w) (w_calls w) (w_invokes w) (S (w_model w))
    (<[thread := state']> (w_store w)) (w_next_id w + 1).

(** The assistant message a reply becomes once it is in the history. *)
Definition assistant_message (w : World) (reply : AIReply) : Message :=
  with_id (w_next_id w) (AIMessage reply).

(** Two worlds with the same invocations, checkpoints and id counter: the
    second has, at most, printed more and sent more requests. *)
Record same_session (w w' : World) : Prop := mkSameSession {
  same_invokes : w_invokes w' = w_invokes w;
  same_store   : w_store w' = w_store w;
  same_next_id : w_next_id w' = w_next_id w
}.

(** [c] never touches the conversation. *)
Definition frames {A} (c : M A) : Prop := ∀ w, same_session w (c w).2.

(** What holds of the world all along a session on thread [t] that started
    with the history [h0]: the saved ids are in use, every invocation was
    made under [t], nothing is saved under another id, and the history
    under [t] still starts with [h0]. *)
Record session_inv (t : string) (h0 : list Message) (w : World) : Prop :=
  mkSessionInv {
    inv_wf      : wf_world w;
    inv_threads : Forall (λ i, inv_thread i = t) (w_invokes w);
    inv_dom     : dom (w_store w) ⊆ {[t]};
    inv_grows   : h0 `prefix_of` history t w
  }.

(** [c] keeps [I], whether it returns or raises. *)
Definition keeps (I : World → Prop) {A} (c : M A) : Prop :=
  ∀ w, I w → I (c w).2.

(** [c] always returns: no exception leaves it. *)
Definition returns {A} (c : M A) : Prop := ∀ w, ∃ a, (c w).1 = Ret a.

(** The identifier resolves to [match_]: the rest of the [try] block. *)
Definition fetch_and_print (env : Env) (match_ : Resource) : M unit :=
  try_except
    (let! contents := remote (CallReadResource (r_uri match_))
         (λ n, srv_read_resource env n (r_uri match_)) in
     for_each contents (λ content,
       match content with
       | TextResourceContents text =>
           print (nl +:+ "=== Resource Text ===") ;;; print text
       | BlobResourceContents _ => ret tt
       end))
    (λ e, print ("Resource fetch failed: " +:+ exn_str e)).

(** The world after several lines are printed. *)
Definition printed_all (ls : list string) (w : World) : World :=
  mkWorld (w_out w ++ ls) (w_calls w) (w_invokes w) (w_model w)
    (w_store w) (w_next_id w).

(** What [/resources] shows for a listing. *)
Definition resource_listing_lines (rs : list Resource) : list string :=
  match rs with
  | [] => ["No resources found on the server."]
  | _ :: _ =>
      (nl +:+ "Available Resources:")
      :: ((λ ir : nat * Resource,
             "[" +:+ PyStr.str_of_nat ir.1 +:+ "] " +:+ r_name ir.2)
          <$> PyStr.enumerate 1 rs)
      ++ [nl +:+ "Use: /resource <name> to view its content."]
  end.

(** What [/resource] shows for the blocks of a resource. *)
Definition text_block_lines (contents : list ResourceContents) : list string :=
  concat ((λ c, match c with
                | TextResourceContents text => [nl +:+ "=== Resource Text ==="; text]
                | BlobResourceContents _ => []
                end) <$> contents).

(** What [/prompts] shows for one prompt, and for a listing. *)
Definition prompt_lines (p : Prompt) : list string :=
  (nl +:+ "Prompt: " +:+ p_name p)
  :: match p_arguments p with
     | Some (_ :: _ as arguments) => (λ a, "  - " +:+ pa_name a) <$> arguments
     | Some [] | None => ["  - No arguments required."]
     end.

Definition prompt_listing_lines (ps : list Prompt) : list string :=
  match ps with
  | [] => ["No prompts found on the server."]
  | _ :: _ =>
      (nl +:+ "Available Prompts and Argument Structure:")
      :: concat (prompt_lines <$> ps)
      ++ [nl +:+ "Use: /prompt <prompt_name> " +:+ dq +:+ "arg1" +:+ dq
          +:+ " " +:+ dq +:+ "arg2" +:+ dq +:+ " ..."]
  end.

(** [c] leaves the component [f] of the world as it was. *)
Definition preserves {A X} (f : World → X) (c : M A) : Prop :=
  ∀ w, f (c w).2 = f w.

(** A line that cannot make the loop fail: it is not [/prompts], and if it
    is a [/prompt] or [/resource] command its quoting is balanced. *)
Definition safe_line (line : string) : Prop :=
  let user_input := PyStr.strip line in
  is_exit user_input = true
  ∨ (PyStr.startswith user_input "/prompts" = false
     ∧ (PyStr.startswith user_input "/prompt" = true
        ∨ (PyStr.startswith user_input "/resources" = false
           ∧ PyStr.startswith user_input "/resource" = true)
        → ∃ parts, Shlex.split (PyStr.strip user_input) = Ret parts)).

(** ** Resource resolution *)

Section ResourceMap.

Implicit Types (rs : list Resource) (d : gmap string string).

Lemma resource_map_unfold rs :
  resource_map rs = foldl add_entry ∅ (PyStr.enumerate 0 rs).
Proof. reflexivity. Qed.

Lemma str_of_nat_inj n m : PyStr.str_of_nat n = PyStr.str_of_nat m → n = m.
Proof. unfold PyStr.str_of_nat. apply (inj pretty). Qed.

(** A key that is the numeral of no position of the listing is left as
    the dictionary had it. *)
Lemma fold_entries_other rs : ∀ start d k,
  (∀ i, i < length rs → k ≠ PyStr.str_of_nat (start + i + 1)) →
  foldl add_entry d (PyStr.enumerate start rs) !! k = d !! k.
Proof.
  induction rs as [|r rs IH]; intros start d k Hk; [done|].
  simpl. rewrite IH.
  - unfold add_entry; simpl. rewrite lookup_insert_ne; [done|].
    intros E. apply (Hk 0); [simpl; lia|].
    rewrite <- E. f_equal. lia.
  - intros i Hi. replace (S start + i + 1) with (start + S i + 1) by lia.
    apply Hk. simpl; lia.
Qed.

(** The numeral of a position is bound to the name listed there. *)
Lemma fold_entries_position rs : ∀ start d i r,
  rs !! i = Some r →
  foldl add_entry d (PyStr.enumerate start rs) !! PyStr.str_of_nat (start + i + 1)
  = Some (r_name r).
Proof.
  induction rs as [|r0 rs IH]; intros start d i r Hi; [done|].
  destruct i as [|i]; simpl in *.
  - injection Hi as ->. rewrite fold_entries_other.
    + unfold add_entry; simpl. replace (start + 0 + 1) with (start + 1) by lia.
      apply lookup_insert_eq.
    + intros j _ E. apply str_of_nat_inj in E. lia.
  - replace (start + S i + 1) with (S start + i + 1) by lia. by apply IH.
Qed.

Lemma resource_map_position rs i r :
  rs !! i = Some r →
  resource_map rs !! PyStr.str_of_nat (i + 1) = Some (r_name r).
Proof. intros H. rewrite resource_map_unfold. by apply (fold_entries_position rs 0). Qed.

Lemma resource_map_other rs k :
  (∀ i, i < length rs → k ≠ PyStr.str_of_nat (i + 1)) →
  resource_map rs !! k = None.
Proof.
  intros H. rewrite resource_map_unfold, fold_entries_other; [done|].
  intros i Hi. by apply H.
Qed.

(** A position resolves to the first resource that carries the name listed
    at that position. *)
Lemma resolve_position rs i r :
  rs !! i = Some r →
  resolve_resource rs (PyStr.str_of_nat (i + 1))
  = List.find (λ r', bool_decide (r_name r' = r_name r)) rs.
Proof.
  intros H. unfold resolve_resource. by rewrite (resource_map_position rs i r).
Qed.

(** Anything else resolves as a name. *)
Lemma resolve_name rs k :
  (∀ i, i < length rs → k ≠ PyStr.str_of_nat (i + 1)) →
  resolve_resource rs k = List.find (λ r', bool_decide (r_name r' = k)) rs.
Proof.
  intros H. unfold resolve_resource. by rewrite resource_map_other.
Qed.

(** [find] returns the listed resource itself when no earlier one has its
    name. *)
Lemma find_first_named rs : ∀ i r,
  rs !! i = Some r →
  (∀ j r', j < i → rs !! j = Some r' → r_name r' ≠ r_name r) →
  List.find (λ r', bool_decide (r_name r' = r_name r)) rs = Some r.
Proof.
  induction rs as [|r0 rs IH]; intros i r Hi Hfirst; [done|].
  destruct i as [|i]; simpl in *.
  - injection Hi as ->. by rewrite bool_decide_eq_true_2.
  - rewrite bool_decide_eq_false_2.
    + apply (IH i); [done|]. intros j r' Hj Hr'. apply (Hfirst (S j)); [lia|done].
    + apply (Hfirst 0); [lia|done].
Qed.

End ResourceMap.

(** ** [handle_resource], case by case *)

Section HandleResource.

Variable env : Env.

Lemma try_except_bind_ret {A B} (c : M A) (k : A → M B) h w a w' :
  c w = (Ret a, w') →
  try_except (let! x := c in k x) h w = try_except (k a) h w'.
Proof. intros H. unfold try_except, bind. by rewrite H. Qed.

Lemma try_except_bind_raise {A B} (c : M A) (k : A → M B) h w e w' :
  c w = (Raise e, w') →
  try_except (let! x := c in k x) h w = h e w'.
Proof. intros H. unfold try_except, bind. by rewrite H. Qed.

(** The identifier names nothing in the listing just fetched. *)
Lemma handle_resource_none command w x resource_id rest rs :
  Shlex.split (PyStr.strip command) = Ret (x :: resource_id :: rest) →
  srv_list_resources env (length (w_calls w)) = Ret rs →
  resolve_resource rs resource_id = None →
  handle_resource env command w
  = (Ret tt, printed ("Resource '" +:+ resource_id +:+ "' not found.")
               (sent CallListResources w)).
Proof.
  intros Hsplit Hlist Hres. unfold handle_resource, bind at 1, lift.
  rewrite Hsplit.
  erewrite try_except_bind_ret by (unfold remote; rewrite Hlist; reflexivity).
  by rewrite Hres.
Qed.

Lemma handle_resource_some command w x resource_id rest rs match_ :
  Shlex.split (PyStr.strip command) = Ret (x :: resource_id :: rest) →
  srv_list_resources env (length (w_calls w)) = Ret rs →
  resolve_resource rs resource_id = Some match_ →
  handle_resource env command w
  = fetch_and_print env match_ (sent CallListResources w).
Proof.
  intros Hsplit Hlist Hres. unfold handle_resource, bind at 1, lift.
  rewrite Hsplit.
  erewrite try_except_bind_ret by (unfold remote; rewrite Hlist; reflexivity).
  by rewrite Hres.
Qed.

End HandleResource.

Section ResourceClaims.

Variable env : Env.

Lemma find_named_is_some (rs : list Resource) : ∀ i r,
  rs !! i = Some r →
  is_Some (List.find (λ r', bool_decide (r_name r' = r_name r)) rs).
Proof.
  induction rs as [|r0 rs IH]; intros i r Hi; [done|].
  simpl. case_bool_decide; [by eexists|].
  destruct i as [|i]; simpl in Hi; [congruence|]. by apply (IH i).
Qed.

(** C2, as the code has it.  Typing the position of a listed resource reads
    the same resource, with the same requests and the same output, as typing
    the name listed at that position, as long as that name is not itself the
    numeral of a position of the listing. *)
Theorem handle_resource_position_as_name
    (w : World) (by_position by_name x1 x2 : string) (rest1 rest2 : list string)
    (rs : list Resource) (i : nat) (r : Resource) :
  Shlex.split (PyStr.strip by_position)
    = Ret (x1 :: PyStr.str_of_nat (i + 1) :: rest1) →
  Shlex.split (PyStr.strip by_name) = Ret (x2 :: r_name r :: rest2) →
  srv_list_resources env (length (w_calls w)) = Ret rs →
  rs !! i = Some r →
  (∀ j, j < length rs → r_name r ≠ PyStr.str_of_nat (j + 1)) →
  resolve_resource rs (PyStr.str_of_nat (i + 1)) = resolve_resource rs (r_name r)
  ∧ handle_resource env by_position w = handle_resource env by_name w.
Proof.
  intros Hpos Hname Hlist Hi Hnum.
  assert (Hres : resolve_resource rs (PyStr.str_of_nat (i + 1))
                 = resolve_resource rs (r_name r)).
  { by rewrite (resolve_position rs i r), resolve_name. }
  split; [exact Hres|].
  destruct (find_named_is_some rs i r Hi) as [m Hm].
  rewrite <- (resolve_position rs i r Hi) in Hm.
  rewrite (handle_resource_some env by_position w _ _ _ rs m Hpos Hlist Hm).
  rewrite Hres in Hm.
  by rewrite (handle_resource_some env by_name w _ _ _ rs m Hname Hlist Hm).
Qed.

(** C10, as the code has it.  An identifier that is the numeral of a position
    is taken as that position even when another resource bears it as its
    name: what is read is the first resource carrying the name listed at that
    position, which is the resource at that position when no earlier one
    shares its name, and not the resource named by the identifier. *)
Theorem resolve_position_precedence
    (rs : list Resource) (i k : nat) (r other : Resource) :
  rs !! i = Some r →
  rs !! k = Some other →
  r_name other = PyStr.str_of_nat (i + 1) →
  other ≠ r →
  resolve_resource rs (PyStr.str_of_nat (i + 1))
    = List.find (λ r', bool_decide (r_name r' = r_name r)) rs
  ∧ ((∀ j r', j < i → rs !! j = Some r' → r_name r' ≠ r_name r) →
     resolve_resource rs (PyStr.str_of_nat (i + 1)) = Some r
     ∧ resolve_resource rs (PyStr.str_of_nat (i + 1)) ≠ Some other).
Proof.
  intros Hi Hk Hname Hne.
  pose proof (resolve_position rs i r Hi) as Hres.
  split; [exact Hres|]. intros Hfirst.
  rewrite Hres, (find_first_named rs i r Hi Hfirst).
  split; [done|congruence].
Qed.

(** C8, as the code has it.  [handle_resource] fetches the listing itself,
    whatever was requested earlier in the session.  When the identifier
    resolves to no resource of that listing, and so whenever the listing is
    empty, the only line printed is the not-found message and the only
    request sent is the listing: no content is read. *)
Theorem handle_resource_not_found
    (w : World) (command x resource_id : string) (rest : list string)
    (rs : list Resource) :
  Shlex.split (PyStr.strip command) = Ret (x :: resource_id :: rest) →
  srv_list_resources env (length (w_calls w)) = Ret rs →
  resolve_resource rs resource_id = None →
  handle_resource env command w
  = (Ret tt,
     mkWorld (w_out w ++ ["Resource '" +:+ resource_id +:+ "' not found."])
       (w_calls w ++ [CallListResources]) (w_invokes w) (w_model w)
       (w_store w) (w_next_id w)).
Proof. apply handle_resource_none. Qed.

Lemma resolve_resource_empty (resource_id : string) :
  resolve_resource [] resource_id = None.
Proof. reflexivity. Qed.

End ResourceClaims.

(** C2 fails as stated.  In the listing [notes, 1] the second position
    resolves to the resource named 1, while typing that name, 1, is taken as
    the first position and reads [notes]. *)
Lemma position_as_name_fails :
  let rs := [mkResource "notes" "wiki://notes"; mkResource "1" "wiki://one"] in
  let env := Example.env_listing rs in
  rs !! 1 = Some (mkResource "1" "wiki://one")
  ∧ resolve_resource rs (PyStr.str_of_nat (1 + 1)) = Some (mkResource "1" "wiki://one")
  ∧ resolve_resource rs "1" = Some (mkResource "notes" "wiki://notes")
  ∧ w_calls (handle_resource env "/resource 2" init_world).2
    = [CallListResources; CallReadResource "wiki://one"]
  ∧ w_calls (handle_resource env "/resource 1" init_world).2
    = [CallListResources; CallReadResource "wiki://notes"]
  ∧ handle_resource env "/resource 2" init_world
    ≠ handle_resource env "/resource 1" init_world.
Proof.
  cbv zeta. repeat split; try (vm_compute; reflexivity).
  intros E. apply (f_equal (λ x, w_calls x.2)) in E. vm_compute in E. discriminate E.
Qed.

(** The second position of the example listing and the name listed there. *)
Lemma position_as_name_example :
  resolve_resource Example.resources (PyStr.str_of_nat (1 + 1))
    = resolve_resource Example.resources "history"
  ∧ handle_resource Example.env "/resource 2" init_world
    = handle_resource Example.env "/resource history" init_world.
Proof.
  apply (handle_resource_position_as_name Example.env init_world
           "/resource 2" "/resource history" "/resource" "/resource" [] []
           Example.resources 1 (mkResource "history" "wiki://history")).
  - vm_compute; reflexivity.
  - vm_compute; reflexivity.
  - reflexivity.
  - reflexivity.
  - intros j Hj. simpl in Hj.
    destruct j as [|[|[|j]]]; [vm_compute; discriminate ..|lia].
Defined.

(** C10 fails as stated.  In the listing [draft, draft, 2] the identifier 2
    is a position and the name of the third resource; it is taken as the
    position, but what is read is the first [draft], not the resource at
    position two. *)
Lemma position_precedence_fails :
  let rs := [mkResource "draft" "wiki://draft/a";
             mkResource "draft" "wiki://draft/b";
             mkResource "2" "wiki://two"] in
  rs !! 1 = Some (mkResource "draft" "wiki://draft/b")
  ∧ rs !! 2 = Some (mkResource "2" "wiki://two")
  ∧ PyStr.str_of_nat (1 + 1) = "2"
  ∧ resolve_resource rs "2" = Some (mkResource "draft" "wiki://draft/a")
  ∧ resolve_resource rs "2" ≠ rs !! 1.
Proof.
  cbv zeta. repeat split; try (vm_compute; reflexivity).
  vm_compute. discriminate.
Qed.

(** A listing whose first resource is named 3: the identifier 3 reads the
    third resource. *)
Lemma position_precedence_example :
  let rs := [mkResource "3" "wiki://three"; mkResource "history" "wiki://history";
             mkResource "links" "wiki://links"] in
  resolve_resource rs (PyStr.str_of_nat (2 + 1))
    = List.find (λ r', bool_decide (r_name r' = "links")) rs
  ∧ ((∀ j r', j < 2 → rs !! j = Some r' → r_name r' ≠ "links") →
     resolve_resource rs (PyStr.str_of_nat (2 + 1)) = Some (mkResource "links" "wiki://links")
     ∧ resolve_resource rs (PyStr.str_of_nat (2 + 1)) ≠ Some (mkResource "3" "wiki://three")).
Proof.
  cbv zeta.
  apply (resolve_position_precedence
           [mkResource "3" "wiki://three"; mkResource "history" "wiki://history";
            mkResource "links" "wiki://links"]
           2 0 (mkResource "links" "wiki://links") (mkResource "3" "wiki://three")).
  - reflexivity.
  - reflexivity.
  - vm_compute; reflexivity.
  - discriminate.
Defined.

(** C8 fails as stated.  In a fresh session, with no request sent yet, the
    command [/resource intro] prints the text of the resource. *)
Lemma resource_without_listing_is_read :
  w_calls init_world = []
  ∧ handle_resource Example.env "/resource intro" init_world
    = (Ret tt,
       mkWorld [nl +:+ "=== Resource Text ==="; "text of wiki://intro"]
         [CallListResources; CallReadResource "wiki://intro"] [] 0 ∅ 0).
Proof. split; vm_compute; reflexivity. Qed.

(** A name the example server does not list. *)
Lemma handle_resource_not_found_example :
  handle_resource Example.env "/resource glossary" init_world
  = (Ret tt,
     mkWorld ["Resource 'glossary' not found."] [CallListResources] [] 0 ∅ 0).
Proof.
  apply (handle_resource_not_found Example.env init_world
           "/resource glossary" "/resource" "glossary" [] Example.resources).
  - vm_compute; reflexivity.
  - reflexivity.
  - vm_compute; reflexivity.
Defined.

(** ** The reducer *)

Section Reducer.

Implicit Types (l left right : list Message) (m : Message) (n : nat).

Lemma ids_below_mono n n' l : n ≤ n' → ids_below n l → ids_below n' l.
Proof.
  intros Hle Hl. eapply Forall_impl; [exact Hl|].
  intros m (i & Hi & Hlt). exists i. split; [done|lia].
Qed.

Lemma ids_below_app n l1 l2 :
  ids_below n l1 → ids_below n l2 → ids_below n (l1 ++ l2).
Proof. unfold ids_below. rewrite Forall_app. tauto. Qed.

Lemma length_stamp l : ∀ n, length (stamp n l) = length l.
Proof. induction l as [|m l IH]; intros n; simpl; [done|]. by rewrite IH. Qed.

Lemma ids_below_stamp l : ∀ n, ids_below (n + length l) (stamp n l).
Proof.
  induction l as [|m l IH]; intros n; simpl; [constructor|].
  constructor.
  - exists n. split; [done|lia].
  - replace (n + S (length l)) with (S n + length l) by lia. apply IH.
Qed.

(** Ids at or above [n], strictly increasing: what [stamp] produces. *)
Lemma stamp_ids l : ∀ n,
  Forall (λ m, ∃ i, msg_id m = Some i ∧ n ≤ i) (stamp n l).
Proof.
  induction l as [|m l IH]; intros n; simpl; constructor.
  - exists n. split; [done|lia].
  - eapply Forall_impl; [apply (IH (S n))|].
    intros m' (i & Hi & Hle). exists i. split; [done|lia].
Qed.

Lemma assign_ids_stamped n l : ids_below n l → ∀ k, assign_ids k l = (l, k).
Proof.
  induction 1 as [|m l (i & Hi & _) _ IH]; intros k; simpl; [done|].
  by rewrite Hi, IH.
Qed.

Lemma assign_ids_unstamped l :
  unstamped l → ∀ n, assign_ids n l = (stamp n l, n + length l).
Proof.
  induction 1 as [|m l Hm _ IH]; intros n; simpl.
  - f_equal. lia.
  - rewrite Hm, IH. f_equal. lia.
Qed.

Lemma index_of_id_fresh i l :
  Forall (λ m, msg_id m ≠ i) l → index_of_id i l = None.
Proof.
  induction 1 as [|m l Hm _ IH]; simpl; [done|].
  rewrite IH. by rewrite bool_decide_eq_false_2.
Qed.

Lemma merge_one_fresh n l m i :
  ids_below n l → msg_id m = Some i → n ≤ i → merge_one l m = l ++ [m].
Proof.
  intros Hl Hm Hle. unfold merge_one. rewrite index_of_id_fresh; [done|].
  eapply Forall_impl; [exact Hl|].
  intros m' (j & Hj & Hlt). rewrite Hj, Hm. intros [= ->]. lia.
Qed.

(** Merging freshly stamped messages appends them, in order. *)
Lemma merge_stamp right : ∀ n left,
  ids_below n left → merge left (stamp n right) = left ++ stamp n right.
Proof.
  unfold merge.
  induction right as [|m right IH]; intros n left Hleft; simpl.
  - by rewrite app_nil_r.
  - rewrite (merge_one_fresh n left (with_id n m) n); [|done|done|lia].
    rewrite (IH (S n)).
    + by rewrite <- app_assoc.
    + apply ids_below_app.
      * apply (ids_below_mono n); [lia|done].
      * constructor; [|constructor]. exists n. split; [done|lia].
Qed.

(** What [add_messages] does to a history whose ids are in use, given new
    messages that carry none. *)
Lemma add_messages_append left (right : Messages) (w : World) :
  ids_below (w_next_id w) left →
  unstamped (convert_to_messages right) →
  add_messages left right w
  = (Ret (left ++ stamp (w_next_id w) (convert_to_messages right)),
     mkWorld (w_out w) (w_calls w) (w_invokes w) (w_model w) (w_store w)
       (w_next_id w + length (convert_to_messages right))).
Proof.
  intros Hleft Hright. unfold add_messages.
  rewrite (assign_ids_stamped _ _ Hleft), (assign_ids_unstamped _ Hright).
  by rewrite merge_stamp.
Qed.

End Reducer.

(** ** Commands that leave the conversation alone *)

Section Frames.

Lemma same_session_refl w : same_session w w.
Proof. by constructor. Qed.

Lemma same_session_trans w1 w2 w3 :
  same_session w1 w2 → same_session w2 w3 → same_session w1 w3.
Proof. intros [] []. constructor; congruence. Qed.

Lemma frames_ret {A} (a : A) : frames (ret a).
Proof. intros w. apply same_session_refl. Qed.

Lemma frames_raise {A} e : frames (@raise A e).
Proof. intros w. apply same_session_refl. Qed.

Lemma frames_lift {A} (o : outcome A) : frames (lift o).
Proof. intros w. apply same_session_refl. Qed.

Lemma frames_print s : frames (print s).
Proof. intros w. by constructor. Qed.

Lemma frames_remote {A} c (answer : nat → outcome A) : frames (remote c answer).
Proof. intros w. by constructor. Qed.

Lemma frames_ask_model {A} (answer : nat → outcome A) : frames (ask_model answer).
Proof. intros w. by constructor. Qed.

Lemma frames_bind {A B} (c : M A) (k : A → M B) :
  frames c → (∀ a, frames (k a)) → frames (let! x := c in k x).
Proof.
  intros Hc Hk w. unfold bind. specialize (Hc w).
  destruct (c w) as [[a|e] w1]; simpl in *; [|done].
  eapply same_session_trans; [exact Hc|apply Hk].
Qed.

Lemma frames_try_except {A} (c : M A) h :
  frames c → (∀ e, frames (h e)) → frames (try_except c h).
Proof.
  intros Hc Hh w. unfold try_except. specialize (Hc w).
  destruct (c w) as [[a|e] w1]; simpl in *; [done|].
  eapply same_session_trans; [exact Hc|apply Hh].
Qed.

Lemma frames_for_each {A} (l : list A) body :
  (∀ x, frames (body x)) → frames (for_each l body).
Proof.
  intros Hb. induction l as [|x l IH]; simpl.
  - apply frames_ret.
  - apply frames_bind; [apply Hb|intros _; exact IH].
Qed.

End Frames.


Ltac frames_auto :=
  repeat match goal with
    | |- frames (bind _ _) => apply frames_bind; [|intros ?]
    | |- frames (try_except _ _) => apply frames_try_except; [|intros ?]
    | |- frames (for_each _ _) => apply frames_for_each; intros ?
    | |- frames (ret _) => apply frames_ret
    | |- frames (raise _) => apply frames_raise
    | |- frames (lift _) => apply frames_lift
    | |- frames (print _) => apply frames_print
    | |- frames (remote _ _) => apply frames_remote
    | |- frames (ask_model _) => apply frames_ask_model
    | |- frames (match ?x with _ => _ end) => destruct x
    end.

Section ToolStep.

Variable env : Env.
Variable tools : list string.

(** A request always yields a tool-result message for that very request. *)
Lemma run_one_result call w :
  ∃ content, (run_one env tools call w).1 = Ret (ToolMessage content (tc_id call)).
Proof.
  unfold run_one. case_bool_decide; [|by eexists].
  unfold try_except, bind, remote, ret.
  destruct (srv_call_tool env _ _ _); by eexists.
Qed.

Lemma frames_run_one call : frames (run_one env tools call).
Proof. unfold run_one. frames_auto. Qed.

Lemma frames_run_all calls : frames (run_all env tools calls).
Proof.
  induction calls as [|c calls IH]; simpl; [apply frames_ret|].
  apply frames_bind; [apply frames_run_one|intros m].
  apply frames_bind; [exact IH|intros ms; apply frames_ret].
Qed.

(** The requests are answered one by one, in order, each by one message. *)
Lemma run_all_results calls : ∀ w,
  ∃ outputs,
    (run_all env tools calls w).1 = Ret outputs
    ∧ Forall2 (λ call m, ∃ content, m = ToolMessage content (tc_id call))
        calls outputs.
Proof.
  induction calls as [|c calls IH]; intros w; simpl.
  - exists []. split; [done|constructor].
  - unfold bind at 1.
    destruct (run_one_result c w) as [content Hc].
    destruct (run_one env tools c w) as [o w1]; simpl in Hc; subst o.
    unfold bind at 1.
    destruct (IH w1) as (outs & Ho & Hall).
    destruct (run_all env tools calls w1) as [o w2]; simpl in Ho; subst o.
    exists (ToolMessage content (tc_id c) :: outs). split; [done|].
    constructor; [by eexists|done].
Qed.

Lemma frames_chat_node state : frames (chat_node env state).
Proof. unfold chat_node, chat_llm_invoke. frames_auto. Qed.

Lemma frames_tool_node state : frames (tool_node env tools state).
Proof.
  unfold tool_node.
  destruct (latest_ai_message _) as [m|]; [|apply frames_raise].
  apply frames_bind; [apply frames_run_all|intros ?; apply frames_ret].
Qed.

Lemma frames_run_node n state : frames (run_node env tools n state).
Proof.
  destruct n; simpl;
    [apply frames_ret|apply frames_chat_node|apply frames_tool_node|apply frames_ret].
Qed.

End ToolStep.

(** ** The steps of the graph *)

Section Steps.

Variable env : Env.
Variable tools : list string.

Lemma stamp_tool_results calls : ∀ outputs n,
  Forall2 (λ call m, ∃ content, m = ToolMessage content (tc_id call)) calls outputs →
  unstamped outputs
  ∧ Forall2 (λ call m, msg_role m = ToolRole
                       ∧ msg_tool_call_id m = Some (tc_id call)
                       ∧ msg_tool_calls m = [])
      calls (stamp n outputs).
Proof.
  induction calls as [|c calls IH]; intros outputs n H; inversion H; subst; simpl.
  - split; constructor.
  - destruct (IH _ (S n) ltac:(eassumption)) as [Hu Hf].
    match goal with Hx : ∃ _, _ = ToolMessage _ _ |- _ => destruct Hx as [? ->] end.
    split; constructor; done.
Qed.

(** The reasoning step, when the model answers. *)
Lemma chat_step thread state w reply :
  ids_below (w_next_id w) state →
  model_reply env (w_model w) (SystemMessage system_prompt :: state) = Ret reply →
  graph_step env tools thread CHAT_NODE state w
  = (Ret (match ai_tool_calls reply with [] => END | _ :: _ => TOOL_NODE end,
          state ++ [assistant_message w reply]),
     after_chat_step thread (state ++ [assistant_message w reply]) w).
Proof.
  intros Hids Hreply.
  unfold graph_step, run_node, chat_node, chat_llm_invoke.
  unfold bind at 1. unfold bind at 1. unfold bind at 1.
  unfold ask_model at 1. simpl. rewrite Hreply. unfold ret at 1 2.
  unfold bind at 1. rewrite add_messages_append; [|exact Hids|by repeat constructor].
  simpl. unfold bind at 1, put_checkpoint. unfold bind at 1, lift.
  unfold next_node, tools_condition. rewrite last_snoc. simpl.
  unfold assistant_message, after_chat_step.
  destruct (ai_tool_calls reply); reflexivity.
Qed.

(** The reasoning step, when the model call fails: nothing is merged. *)
Lemma chat_step_fails thread state w e :
  model_reply env (w_model w) (SystemMessage system_prompt :: state) = Raise e →
  graph_step env tools thread CHAT_NODE state w
  = (Raise e, mkWorld (w_out w) (w_calls w) (w_invokes w) (S (w_model w))
                (w_store w) (w_next_id w)).
Proof.
  intros Hreply.
  unfold graph_step, run_node, chat_node, chat_llm_invoke.
  unfold bind at 1. unfold bind at 1. unfold bind at 1.
  unfold ask_model at 1. simpl. by rewrite Hreply.
Qed.

(** An assistant message that ends the state is its latest one. *)
Lemma latest_of_last (state : list Message) (ai : Message) :
  last state = Some ai →
  msg_role ai = AIRole →
  latest_ai_message state = Some ai.
Proof.
  intros Hlast Hrole. apply last_Some in Hlast as [l ->].
  unfold latest_ai_message. rewrite reverse_snoc. simpl.
  by rewrite bool_decide_eq_true_2.
Qed.

(** The execution step, on a state that holds an assistant message. *)
Lemma tool_step_latest thread state w ai :
  ids_below (w_next_id w) state →
  latest_ai_message state = Some ai →
  ∃ results w',
    graph_step env tools thread TOOL_NODE state w
    = (Ret (CHAT_NODE, state ++ results), w')
    ∧ Forall2 (λ call m, msg_role m = ToolRole
                         ∧ msg_tool_call_id m = Some (tc_id call)
                         ∧ msg_tool_calls m = [])
        (msg_tool_calls ai) results
    ∧ ids_below (w_next_id w') (state ++ results)
    ∧ w_invokes w' = w_invokes w
    ∧ w_store w' = <[thread := state ++ results]> (w_store w)
    ∧ w_next_id w ≤ w_next_id w'.
Proof.
  intros Hids Hlatest.
  unfold graph_step, run_node, tool_node. cbn [messages convert_to_messages].
  rewrite Hlatest.
  unfold bind at 1. unfold bind at 1.
  destruct (run_all_results env tools (msg_tool_calls ai) w) as (outs & Hout & Hall).
  pose proof (frames_run_all env tools (msg_tool_calls ai) w) as [Hiv Hst Hid].
  destruct (run_all env tools (msg_tool_calls ai) w) as [o w1].
  simpl in Hout, Hiv, Hst, Hid. subst o. unfold ret at 1.
  destruct (stamp_tool_results _ _ (w_next_id w1) Hall) as [Hun Hres].
  unfold bind at 1. simpl.
  rewrite add_messages_append; [|by rewrite Hid|exact Hun].
  simpl. unfold bind at 1, put_checkpoint. unfold bind at 1, lift. simpl.
  eexists _, _. split; [reflexivity|]. simpl.
  split; [exact Hres|]. split; [|rewrite Hiv, Hst; repeat split; lia].
  apply ids_below_app.
  - rewrite Hid. eapply ids_below_mono; [|exact Hids]. lia.
  - apply ids_below_stamp.
Qed.

(** The execution step, after an assistant message. *)
Lemma tool_step thread state w ai :
  ids_below (w_next_id w) state →
  last state = Some ai →
  msg_role ai = AIRole →
  ∃ results w',
    graph_step env tools thread TOOL_NODE state w
    = (Ret (CHAT_NODE, state ++ results), w')
    ∧ Forall2 (λ call m, msg_role m = ToolRole
                         ∧ msg_tool_call_id m = Some (tc_id call)
                         ∧ msg_tool_calls m = [])
        (msg_tool_calls ai) results
    ∧ ids_below (w_next_id w') (state ++ results)
    ∧ w_invokes w' = w_invokes w
    ∧ w_store w' = <[thread := state ++ results]> (w_store w)
    ∧ w_next_id w ≤ w_next_id w'.
Proof.
  intros Hids Hlast Hrole.
  by apply tool_step_latest, latest_of_last.
Qed.

End Steps.

Section GraphClaims.

Variable env : Env.
Variable tools : list string.

Lemma tool_step_next thread state w r w' :
  graph_step env tools thread TOOL_NODE state w = (Ret r, w') → r.1 = CHAT_NODE.
Proof.
  unfold graph_step. unfold bind at 1.
  destruct (run_node env tools TOOL_NODE state w) as [[update|e] w1]; [|done].
  unfold bind at 1.
  destruct (add_messages state (messages update) w1) as [[state'|e] w2]; [|done].
  unfold bind at 1, put_checkpoint. unfold bind at 1, lift. simpl.
  by intros [= <- _].
Qed.

(** C4.  After the reasoning step the graph goes to [tool_node] exactly when
    the assistant message it has just appended carries a tool request, and to
    [END] otherwise; the execution step, which runs whenever the history ends
    with an assistant message, always goes back to [chat_node] with the
    extended history. *)
Theorem graph_routing (thread : string) (state : list Message) (w : World) :
  ids_below (w_next_id w) state →
  (∀ reply,
     model_reply env (w_model w) (SystemMessage system_prompt :: state) = Ret reply →
     ∃ next,
       graph_step env tools thread CHAT_NODE state w
       = (Ret (next, state ++ [assistant_message w reply]),
          after_chat_step thread (state ++ [assistant_message w reply]) w)
       ∧ (next = TOOL_NODE ↔ msg_tool_calls (assistant_message w reply) ≠ [])
       ∧ (next = END ↔ msg_tool_calls (assistant_message w reply) = []))
  ∧ (∀ ai, last state = Some ai → msg_role ai = AIRole →
     ∃ state' w',
       graph_step env tools thread TOOL_NODE state w = (Ret (CHAT_NODE, state'), w')
       ∧ state `prefix_of` state')
  ∧ (∀ r w',
       graph_step env tools thread TOOL_NODE state w = (Ret r, w') →
       r.1 = CHAT_NODE).
Proof.
  intros Hids. split; [|split].
  - intros reply Hreply. eexists. split; [by apply chat_step|].
    simpl. destruct (ai_tool_calls reply); split; split; done.
  - intros ai Hlast Hrole.
    destruct (tool_step env tools thread state w ai Hids Hlast Hrole)
      as (results & w' & Hstep & _).
    exists (state ++ results), w'. split; [done|]. by exists results.
  - intros r w'. apply tool_step_next.
Qed.

(** C5.  After an assistant message with N tool requests the execution step
    appends exactly N messages to the history, and the i-th of them is the
    tool result for the i-th request. *)
Theorem tool_step_appends_results
    (thread : string) (state : list Message) (w : World) (ai : Message) :
  ids_below (w_next_id w) state →
  last state = Some ai →
  msg_role ai = AIRole →
  ∃ results w',
    graph_step env tools thread TOOL_NODE state w
    = (Ret (CHAT_NODE, state ++ results), w')
    ∧ length results = length (msg_tool_calls ai)
    ∧ (∀ i call, msg_tool_calls ai !! i = Some call →
         ∃ m, results !! i = Some m
              ∧ msg_role m = ToolRole
              ∧ msg_tool_call_id m = Some (tc_id call))
    ∧ history thread w' = state ++ results.
Proof.
  intros Hids Hlast Hrole.
  destruct (tool_step env tools thread state w ai Hids Hlast Hrole)
    as (results & w' & Hstep & Hall & _ & _ & Hstore & _).
  exists results, w'. split; [done|]. split; [|split].
  - symmetry. by eapply Forall2_length.
  - intros i call Hcall.
    destruct (Forall2_lookup_l _ _ _ _ _ Hall Hcall) as (m & Hm & Hr & Hid & _).
    by exists m.
  - unfold history. by rewrite Hstore, lookup_insert_eq.
Qed.

Lemma tool_step_no_assistant thread state w :
  latest_ai_message state = None →
  ∃ e, graph_step env tools thread TOOL_NODE state w = (Raise e, w).
Proof.
  intros Hno. unfold graph_step, run_node, tool_node.
  cbn [messages convert_to_messages]. rewrite Hno. by eexists.
Qed.

Lemma idle_step thread n state w :
  n = START ∨ n = END →
  ids_below (w_next_id w) state →
  ∃ n' w', graph_step env tools thread n state w = (Ret (n', state), w')
           ∧ w_next_id w' = w_next_id w
           ∧ w_store w' = <[thread := state]> (w_store w)
           ∧ w_invokes w' = w_invokes w.
Proof.
  intros Hn Hids.
  assert (run_node env tools n state = ret (mkState (ManyMessages []))) as Hrun
    by (destruct Hn as [-> | ->]; reflexivity).
  unfold graph_step. rewrite Hrun. unfold bind at 1, ret at 1.
  unfold bind at 1. rewrite add_messages_append; [|done|constructor].
  simpl. rewrite app_nil_r.
  unfold bind at 1, put_checkpoint. unfold bind at 1, lift.
  destruct Hn as [-> | ->]; simpl; eexists _, _;
    (split; [reflexivity|simpl; split; [lia|done]]).
Qed.

(** What a step does to the world: when it completes, the history it
    returns extends the one it was given and is the one checkpointed; when it
    raises, the conversation is as it was. *)
Lemma graph_step_effect thread n state w :
  ids_below (w_next_id w) state →
  match graph_step env tools thread n state w with
  | (Ret r, w') =>
      state `prefix_of` r.2
      ∧ ids_below (w_next_id w') r.2
      ∧ w_next_id w ≤ w_next_id w'
      ∧ w_invokes w' = w_invokes w
      ∧ w_store w' = <[thread := r.2]> (w_store w)
  | (Raise e, w') => same_session w w'
  end.
Proof.
  intros Hids.
  assert (Hidle : n = START ∨ n = END →
    match graph_step env tools thread n state w with
    | (Ret r, w') =>
        state `prefix_of` r.2 ∧ ids_below (w_next_id w') r.2
        ∧ w_next_id w ≤ w_next_id w' ∧ w_invokes w' = w_invokes w
        ∧ w_store w' = <[thread := r.2]> (w_store w)
    | (Raise e, w') => same_session w w'
    end).
  { intros Hn.
    destruct (idle_step thread n state w Hn Hids) as (n1 & w1 & -> & Hid & Hst & Hiv).
    simpl. rewrite Hid. repeat split; [done|done|lia|done|done]. }
  destruct n; [by apply Hidle; left| | |by apply Hidle; right].
  - destruct (model_reply env (w_model w) (SystemMessage system_prompt :: state))
      as [reply|e] eqn:Hreply.
    + rewrite (chat_step env tools thread state w reply Hids Hreply). simpl.
      split; [by eexists|]. split; [|repeat split; lia].
      apply ids_below_app.
      * eapply ids_below_mono; [|exact Hids]. lia.
      * constructor; [|constructor]. eexists. split; [reflexivity|lia].
    + rewrite (chat_step_fails env tools thread state w e Hreply). by constructor.
  - destruct (latest_ai_message state) as [ai|] eqn:Hlatest.
    + destruct (tool_step_latest env tools thread state w ai Hids Hlatest)
        as (results & w1 & -> & _ & Hids' & Hiv & Hstore & Hle).
      simpl. split; [by eexists|done].
    + destruct (tool_step_no_assistant thread state w Hlatest) as (e & ->).
      apply same_session_refl.
Qed.

(** C7.  Whatever the node, a step that completes leaves the earlier history
    as a prefix of the new one: the messages that were there are still there,
    as they were and in the order they had, and the new ones come after them.
    The new history is the one checkpointed. *)
Theorem step_append_only
    (thread : string) (n n' : Node) (state state' : list Message) (w w' : World) :
  ids_below (w_next_id w) state →
  graph_step env tools thread n state w = (Ret (n', state'), w') →
  state `prefix_of` state'
  ∧ ids_below (w_next_id w') state'
  ∧ history thread w' = state'.
Proof.
  intros Hids Hstep.
  pose proof (graph_step_effect thread n state w Hids) as H.
  rewrite Hstep in H. simpl in H. destruct H as (Hpre & Hids' & _ & _ & Hstore).
  split; [done|]. split; [done|].
  unfold history. by rewrite Hstore, lookup_insert_eq.
Qed.

End GraphClaims.

Section TurnClaims.

Variable env : Env.
Variable tools : list string.

Lemma run_graph_end fuel thread state :
  run_graph env tools fuel thread END state = ret state.
Proof. by destruct fuel. Qed.

Lemma run_graph_step fuel thread n state :
  n ≠ END →
  run_graph env tools (S fuel) thread n state
  = (let! r := graph_step env tools thread n state in
     run_graph env tools fuel thread r.1 r.2).
Proof. by destruct n. Qed.

Lemma wf_history thread w : wf_world w → ids_below (w_next_id w) (history thread w).
Proof.
  intros Hwf. unfold history.
  destruct (w_store w !! thread) as [l|] eqn:Hl; simpl; [by eapply Hwf|constructor].
Qed.

(** C6.  A turn, started from the shell with a line of text or from a prompt
    with one human message, in which the model answers without asking for a
    tool, completes and leaves under the thread id the earlier history
    followed by exactly two messages: the user's and the assistant's. *)
Theorem turn_without_tool_calls_adds_two
    (input : Messages) (thread s : string) (w : World) (reply : AIReply) :
  wf_world w →
  input = OneStr s ∨ input = ManyMessages [HumanMessage s] →
  model_reply env (w_model w)
    (SystemMessage system_prompt
       :: history thread w ++ [with_id (w_next_id w) (HumanMessage s)])
  = Ret reply →
  ai_tool_calls reply = [] →
  ∃ w',
    ainvoke env tools input thread w
    = (Ret (history thread w
            ++ [with_id (w_next_id w) (HumanMessage s);
                with_id (w_next_id w + 1) (AIMessage reply)]), w')
    ∧ history thread w'
      = history thread w
        ++ [with_id (w_next_id w) (HumanMessage s);
            with_id (w_next_id w + 1) (AIMessage reply)]
    ∧ msg_role (with_id (w_next_id w) (HumanMessage s)) = HumanRole
    ∧ msg_role (with_id (w_next_id w + 1) (AIMessage reply)) = AIRole
    ∧ length (history thread w') = length (history thread w) + 2.
Proof.
  intros Hwf Hinput Hreply Hnone.
  assert (Hconv : convert_to_messages input = [HumanMessage s])
    by (destruct Hinput as [-> | ->]; reflexivity).
  pose proof (wf_history thread w Hwf) as Hids.
  unfold ainvoke. unfold bind at 1, log_invocation.
  unfold bind at 1, get_checkpoint.
  cbn [w_store]. fold (history thread w).
  unfold bind at 1.
  rewrite add_messages_append; [|exact Hids|rewrite Hconv; by repeat constructor].
  rewrite Hconv.
  cbn [w_store w_next_id w_model w_out w_calls w_invokes stamp length].
  unfold bind at 1, put_checkpoint.
  cbn [w_store w_next_id w_model w_out w_calls w_invokes].
  change recursion_limit with (S 24).
  rewrite run_graph_step by done.
  unfold bind at 1.
  erewrite chat_step; cycle 1.
  - cbn [w_next_id]. apply ids_below_app.
    + eapply ids_below_mono; [|exact Hids]. lia.
    + constructor; [|constructor]. eexists. split; [reflexivity|lia].
  - cbn [w_model w_next_id]. exact Hreply.
  - rewrite Hnone. cbn [fst snd]. rewrite run_graph_end.
    unfold ret, assistant_message, after_chat_step.
    cbn [w_store w_next_id w_model w_out w_calls w_invokes].
    rewrite <- app_assoc. cbn [app].
    eexists. split; [reflexivity|].
    match goal with |- history thread ?w1 = ?h ∧ _ =>
      assert (Hh : history thread w1 = h)
        by (unfold history at 1; cbn [w_store]; by rewrite lookup_insert_eq)
    end.
    rewrite Hh. repeat split. rewrite length_app. cbn [length]. lia.
Qed.

End TurnClaims.

(** ** The session invariant *)

Section Invariant.

Variable env : Env.
Variable tools : list string.
Variable t : string.
Variable h0 : list Message.

Lemma session_inv_init : session_inv t [] init_world.
Proof.
  constructor.
  - intros thread l H. simpl in H. by rewrite lookup_empty in H.
  - constructor.
  - simpl. set_solver.
  - apply prefix_nil.
Qed.

Lemma session_inv_same w w' :
  same_session w w' → session_inv t h0 w → session_inv t h0 w'.
Proof.
  intros [Hiv Hst Hid] [Hwf Hth Hdom Hgr]. constructor.
  - intros thread l. rewrite Hst, Hid. apply Hwf.
  - by rewrite Hiv.
  - by rewrite Hst.
  - unfold history in *. by rewrite Hst.
Qed.

(** Saving an extension of the history under [t]. *)
Lemma session_inv_checkpoint w w' state' :
  session_inv t h0 w →
  history t w `prefix_of` state' →
  ids_below (w_next_id w') state' →
  w_next_id w ≤ w_next_id w' →
  w_invokes w' = w_invokes w →
  w_store w' = <[t := state']> (w_store w) →
  session_inv t h0 w' ∧ history t w' = state'.
Proof.
  intros [Hwf Hth Hdom Hgr] Hpre Hids Hle Hiv Hst.
  assert (Hh : history t w' = state')
    by (unfold history; by rewrite Hst, lookup_insert_eq).
  split; [|done]. constructor.
  - intros thread l. rewrite Hst.
    destruct (decide (t = thread)) as [<-|Hne].
    + rewrite lookup_insert_eq. intros Hl. by injection Hl as <-.
    + rewrite lookup_insert_ne by done. intros Hl.
      eapply ids_below_mono; [exact Hle|]. by eapply Hwf.
  - by rewrite Hiv.
  - rewrite Hst, dom_insert. intros x. rewrite elem_of_union.
    intros [Hx|Hx]; [done|by apply Hdom].
  - rewrite Hh. by etrans.
Qed.

Lemma keeps_frames {A} (c : M A) : frames c → keeps (session_inv t h0) c.
Proof. intros Hc w. apply session_inv_same, Hc. Qed.

Lemma keeps_bind {A B} I (c : M A) (k : A → M B) :
  keeps I c → (∀ a, keeps I (k a)) → keeps I (let! x := c in k x).
Proof.
  intros Hc Hk w Hw. unfold bind. specialize (Hc w Hw).
  destruct (c w) as [[a|e] w1]; simpl in *; [by apply Hk|done].
Qed.

Lemma keeps_try_except {A} I (c : M A) h :
  keeps I c → (∀ e, keeps I (h e)) → keeps I (try_except c h).
Proof.
  intros Hc Hh w Hw. unfold try_except. specialize (Hc w Hw).
  destruct (c w) as [[a|e] w1]; simpl in *; [done|by apply Hh].
Qed.

(** The graph, run from a history that is the one saved under [t]. *)
Lemma run_graph_inv fuel : ∀ n state w,
  session_inv t h0 w →
  history t w = state →
  session_inv t h0 (run_graph env tools fuel t n state w).2
  ∧ (∀ final, (run_graph env tools fuel t n state w).1 = Ret final →
       history t (run_graph env tools fuel t n state w).2 = final
       ∧ state `prefix_of` final).
Proof.
  induction fuel as [|fuel IH]; intros n state w Hinv Hh.
  - destruct n; simpl; (split; [done|]); try done.
    intros final [= <-]. done.
  - destruct (decide (n = END)) as [->|Hn].
    { rewrite run_graph_end. simpl. split; [done|]. by intros final [= <-]. }
    rewrite run_graph_step by done. unfold bind.
    pose proof (graph_step_effect env tools t n state w) as Hstep.
    rewrite <- Hh in Hstep at 1. specialize (Hstep (wf_history t w (inv_wf _ _ _ Hinv))).
    destruct (graph_step env tools t n state w) as [[r|e] w1].
    + destruct Hstep as (Hpre & Hids & Hle & Hiv & Hst).
      destruct (session_inv_checkpoint w w1 r.2 Hinv) as [Hinv1 Hh1]; try done.
      { by rewrite Hh. }
      destruct (IH r.1 r.2 w1 Hinv1 Hh1) as [Hinv2 Hfin].
      split; [done|]. intros final Hfinal.
      destruct (Hfin final Hfinal) as [Hh2 Hpre2]. split; [done|by etrans].
    + simpl. split; [by eapply session_inv_same|done].
Qed.

(** An invocation whose input messages carry no id: the input is appended
    to the saved history, checkpointed, and the graph is run from there. *)
Lemma ainvoke_start input w :
  ids_below (w_next_id w) (history t w) →
  unstamped (convert_to_messages input) →
  ainvoke env tools input t w
  = run_graph env tools recursion_limit t CHAT_NODE
      (history t w ++ stamp (w_next_id w) (convert_to_messages input))
      (mkWorld (w_out w) (w_calls w) (w_invokes w ++ [mkInvocation t input])
         (w_model w)
         (<[t := history t w ++ stamp (w_next_id w) (convert_to_messages input)]>
            (w_store w))
         (w_next_id w + length (convert_to_messages input))).
Proof.
  intros Hids Hin.
  unfold ainvoke. unfold bind at 1, log_invocation.
  unfold bind at 1, get_checkpoint.
  cbn [w_store]. fold (history t w).
  unfold bind at 1. rewrite add_messages_append; [|exact Hids|exact Hin].
  reflexivity.
Qed.

Lemma ainvoke_inv input w :
  unstamped (convert_to_messages input) →
  session_inv t h0 w →
  session_inv t h0 (ainvoke env tools input t w).2
  ∧ (∀ final, (ainvoke env tools input t w).1 = Ret final →
       history t (ainvoke env tools input t w).2 = final
       ∧ history t w `prefix_of` final).
Proof.
  intros Hin Hinv.
  pose proof (wf_history t w (inv_wf _ _ _ Hinv)) as Hids.
  rewrite (ainvoke_start input w Hids Hin).
  set (state := history t w ++ stamp (w_next_id w) (convert_to_messages input)).
  set (w1 := mkWorld _ _ _ _ _ _).
  assert (Hinv1 : session_inv t h0 w1 ∧ history t w1 = state).
  { destruct Hinv as [Hwf Hth Hdom Hgr].
    assert (Hh : history t w1 = state)
      by (unfold history, w1; cbn [w_store]; by rewrite lookup_insert_eq).
    split; [|done]. constructor.
    - intros thread l. unfold w1. cbn [w_store w_next_id].
      destruct (decide (t = thread)) as [<-|Hne].
      + rewrite lookup_insert_eq. intros Hl. injection Hl as <-.
        apply ids_below_app.
        * eapply ids_below_mono; [|exact Hids]. lia.
        * apply ids_below_stamp.
      + rewrite lookup_insert_ne by done. intros Hl.
        eapply ids_below_mono; [|by eapply Hwf]. lia.
    - unfold w1. cbn [w_invokes]. rewrite Forall_app. split; [done|].
      by repeat constructor.
    - unfold w1. cbn [w_store]. rewrite dom_insert. intros x.
      rewrite elem_of_union. intros [Hx|Hx]; [done|by apply Hdom].
    - rewrite Hh. etrans; [exact Hgr|]. by eexists. }
  destruct Hinv1 as [Hinv1 Hh1].
  destruct (run_graph_inv recursion_limit CHAT_NODE state w1 Hinv1 Hh1)
    as [Hinv2 Hfin].
  split; [done|]. intros final Hfinal.
  destruct (Hfin final Hfinal) as [Hh2 Hpre]. split; [done|].
  etrans; [|exact Hpre]. by eexists.
Qed.

Lemma keeps_ainvoke input :
  unstamped (convert_to_messages input) →
  keeps (session_inv t h0) (ainvoke env tools input t).
Proof. intros Hin w Hw. by apply ainvoke_inv. Qed.

End Invariant.

(** ** The shell *)

Ltac keeps_auto :=
  repeat match goal with
    | |- keeps _ (bind _ _) => apply keeps_bind; [|intros ?]
    | |- keeps _ (try_except _ _) => apply keeps_try_except; [|intros ?]
    | |- keeps _ (ainvoke _ _ _ _) => apply keeps_ainvoke; solve [repeat constructor]
    | |- keeps _ (match ?x with _ => _ end) => destruct x
    | |- keeps _ _ => apply keeps_frames; solve [frames_auto]
    end.

Section ShellInvariant.

Variable env : Env.
Variable h0 : list Message.

Lemma frames_list_prompts : frames (list_prompts env).
Proof. unfold list_prompts. frames_auto. Qed.

Lemma frames_list_resources : frames (list_resources env).
Proof. unfold list_resources. frames_auto. Qed.

Lemma frames_handle_resource command : frames (handle_resource env command).
Proof. unfold handle_resource. frames_auto. Qed.

Lemma frames_create_graph : frames (create_graph env).
Proof. unfold create_graph. frames_auto. Qed.

Lemma keeps_handle_prompt tools command agent :
  keeps (session_inv "wiki-session" h0)
    (handle_prompt env tools command agent).
Proof.
  unfold handle_prompt, len_checked, first_item, last_item, text_of.
  keeps_auto.
Qed.

Lemma keeps_chat_turn agent user_input :
  keeps (session_inv "wiki-session" h0) (chat_turn env agent user_input).
Proof. unfold chat_turn, last_item. keeps_auto. Qed.

Lemma keeps_interactive_loop tools agent lines :
  keeps (session_inv "wiki-session" h0)
    (interactive_loop env tools agent lines).
Proof.
  induction lines as [|line lines IH]; cbn [interactive_loop].
  - apply keeps_frames, frames_raise.
  - destruct (is_exit _); [apply keeps_frames, frames_ret|].
    destruct (PyStr.startswith _ "/prompts").
    { apply keeps_bind; [apply keeps_frames, frames_list_prompts|intros _; exact IH]. }
    destruct (PyStr.startswith _ "/prompt").
    { apply keeps_bind; [apply keeps_handle_prompt|intros _; exact IH]. }
    destruct (PyStr.startswith _ "/resources").
    { apply keeps_bind; [apply keeps_frames, frames_list_resources|intros _; exact IH]. }
    destruct (PyStr.startswith _ "/resource").
    { apply keeps_bind; [apply keeps_frames, frames_handle_resource|intros _; exact IH]. }
    apply keeps_bind; [apply keeps_chat_turn|intros _; exact IH].
Qed.

Lemma keeps_main lines : keeps (session_inv "wiki-session" h0) (main env lines).
Proof.
  unfold main.
  apply keeps_bind; [apply keeps_frames, frames_remote|intros _].
  apply keeps_bind; [apply keeps_frames, frames_remote|intros tools].
  apply keeps_bind; [apply keeps_frames, frames_create_graph|intros agent].
  apply keeps_bind; [|intros _; apply keeps_interactive_loop].
  apply keeps_frames, frames_for_each. intros s. apply frames_print.
Qed.

End ShellInvariant.

(** Every world the shell can reach is well formed. *)
Lemma main_wf (env : Env) (lines : list string) :
  wf_world (main env lines init_world).2.
Proof.
  eapply inv_wf. apply (keeps_main env []), session_inv_init.
Qed.

(** Along the loop the history saved under the session id only grows. *)
Lemma interactive_loop_history_grows env tools agent lines h0 w :
  session_inv "wiki-session" h0 w →
  h0 `prefix_of` history "wiki-session" (interactive_loop env tools agent lines w).2.
Proof. intros Hw. eapply inv_grows. by apply keeps_interactive_loop. Qed.

(** C9.  Whatever the server and the model answer and whatever the user
    types, every invocation of the agent made during a run of [main], from a
    plain turn or from a prompt, is made under the thread id [wiki-session],
    and the checkpoint store never holds a history under any other id. *)
Theorem single_conversation (env : Env) (lines : list string) :
  Forall (λ i, inv_thread i = "wiki-session")
    (w_invokes (main env lines init_world).2)
  ∧ dom (w_store (main env lines init_world).2) ⊆ {["wiki-session"]}.
Proof.
  pose proof (keeps_main env [] lines init_world (session_inv_init _)) as H.
  split; [eapply inv_threads, H|eapply inv_dom, H].
Qed.

(** ** Prompt invocation *)

Section PromptClaims.

Variable env : Env.

(** The matched prompt declares [arguments]: the rest of the [try] block. *)
Lemma handle_prompt_declared tools command agent w x prompt_name args prompts
    match_ arguments :
  Shlex.split (PyStr.strip command) = Ret (x :: prompt_name :: args) →
  srv_list_prompts env (length (w_calls w)) = Ret prompts →
  List.find (λ p, bool_decide (p_name p = prompt_name)) prompts = Some match_ →
  p_arguments match_ = Some arguments →
  handle_prompt env tools command agent w
  = try_except
      (if bool_decide (length args ≠ length arguments) then
         print ("Expected " +:+ PyStr.str_of_nat (length arguments)
                +:+ " arguments: " +:+ PyStr.join ", " (pa_name <$> arguments))
       else
         let! response :=
           remote (CallGetPrompt prompt_name (bind_arguments arguments args))
             (λ n, srv_get_prompt env n prompt_name
                     (bind_arguments arguments args)) in
         let! first := first_item response in
         let! prompt_text := text_of (pm_content first) in
         let! agent_response :=
           ainvoke env (agent_tools agent)
             (ManyMessages [HumanMessage prompt_text]) "wiki-session" in
         print (nl +:+ "=== Prompt Result ===") ;;;
         let! answer := last_item agent_response in
         print (msg_content answer))
      (λ e, print ("Prompt invocation failed: " +:+ exn_str e))
      (sent CallListPrompts w).
Proof.
  intros Hsplit Hlist Hfind Hargs.
  unfold handle_prompt, bind at 1, lift. rewrite Hsplit.
  erewrite try_except_bind_ret by (unfold remote; rewrite Hlist; reflexivity).
  rewrite Hfind, Hargs. by erewrite try_except_bind_ret by reflexivity.
Qed.

(** X22.  When the matched prompt declares a list of arguments and the
    number of arguments typed differs from its length, [handle_prompt]
    returns having sent the listing request and nothing else, so no
    get-prompt request; having printed one line, which names the expected
    parameters; and having left the agent alone: no invocation, no
    checkpoint, no message id used. *)
Theorem handle_prompt_arity_mismatch
    (tools : list string) (command : string) (agent : Agent) (w : World)
    (x prompt_name : string) (args : list string)
    (prompts : list Prompt) (match_ : Prompt)
    (arguments : list PromptArgument) :
  Shlex.split (PyStr.strip command) = Ret (x :: prompt_name :: args) →
  srv_list_prompts env (length (w_calls w)) = Ret prompts →
  List.find (λ p, bool_decide (p_name p = prompt_name)) prompts = Some match_ →
  p_arguments match_ = Some arguments →
  length args ≠ length arguments →
  handle_prompt env tools command agent w
  = (Ret tt,
     mkWorld
       (w_out w ++
          ["Expected " +:+ PyStr.str_of_nat (length arguments)
           +:+ " arguments: "
           +:+ PyStr.join ", " (pa_name <$> arguments)])
       (w_calls w ++ [CallListPrompts])
       (w_invokes w) (w_model w) (w_store w) (w_next_id w)).
Proof.
  intros Hsplit Hlist Hfind Hargs Hlen.
  rewrite (handle_prompt_declared tools command agent w x prompt_name args
             prompts match_ arguments Hsplit Hlist Hfind Hargs).
  by rewrite bool_decide_eq_true_2.
Qed.

(** X23.  A prompt that the server lists without an argument list cannot be
    invoked, whatever is typed after its name: taking the length of the
    missing list raises inside the [try], the failure is printed, and neither
    the get-prompt request nor the agent is reached. *)
Theorem handle_prompt_without_declaration
    (tools : list string) (command : string) (agent : Agent) (w : World)
    (x prompt_name : string) (args : list string)
    (prompts : list Prompt) (match_ : Prompt) :
  Shlex.split (PyStr.strip command) = Ret (x :: prompt_name :: args) →
  srv_list_prompts env (length (w_calls w)) = Ret prompts →
  List.find (λ p, bool_decide (p_name p = prompt_name)) prompts = Some match_ →
  p_arguments match_ = None →
  handle_prompt env tools command agent w
  = (Ret tt,
     printed "Prompt invocation failed: object of type 'NoneType' has no len()"
       (sent CallListPrompts w)).
Proof.
  intros Hsplit Hlist Hfind Hargs.
  unfold handle_prompt, bind at 1, lift. rewrite Hsplit.
  erewrite try_except_bind_ret by (unfold remote; rewrite Hlist; reflexivity).
  rewrite Hfind, Hargs. by erewrite try_except_bind_raise by reflexivity.
Qed.

End PromptClaims.

(** C1 fails on a prompt that is listed without an argument list.  The
    command gives it one argument, which is one more than it declares; the
    line printed is the failure of [len] and names no expected parameter.
    No get-prompt request is sent and the agent is not invoked. *)
Theorem arity_mismatch_without_declaration_unexplained :
  handle_prompt (Example.env_prompts [mkPrompt "hello" None]) ["search"]
    "/prompt hello extra" Example.agent init_world
  = (Ret tt,
     mkWorld
       ["Prompt invocation failed: object of type 'NoneType' has no len()"]
       [CallListPrompts] [] 0 ∅ 0).
Proof. vm_compute. reflexivity. Qed.

(** Two arguments for a prompt that declares one. *)
Lemma handle_prompt_arity_mismatch_example :
  handle_prompt Example.env ["search"]
    ("/prompt summarize " +:+ dq +:+ "Ada Lovelace" +:+ dq +:+ " " +:+ dq
     +:+ "extra" +:+ dq)
    Example.agent init_world
  = (Ret tt, mkWorld ["Expected 1 arguments: topic"] [CallListPrompts] [] 0 ∅ 0).
Proof.
  apply (handle_prompt_arity_mismatch Example.env ["search"] _ Example.agent
           init_world "/prompt" "summarize" ["Ada Lovelace"; "extra"]
           Example.prompts (mkPrompt "summarize" (Some [mkPromptArgument "topic"]))
           [mkPromptArgument "topic"]).
  - vm_compute; reflexivity.
  - reflexivity.
  - vm_compute; reflexivity.
  - reflexivity.
  - simpl; lia.
Defined.

(** A prompt listed without arguments, invoked with none. *)
Lemma handle_prompt_without_declaration_example :
  handle_prompt (Example.env_prompts [mkPrompt "hello" None]) ["search"]
    "/prompt hello" Example.agent init_world
  = (Ret tt,
     printed "Prompt invocation failed: object of type 'NoneType' has no len()"
       (sent CallListPrompts init_world)).
Proof.
  apply (handle_prompt_without_declaration
           (Example.env_prompts [mkPrompt "hello" None]) ["search"] _
           Example.agent init_world "/prompt" "hello" []
           [mkPrompt "hello" None] (mkPrompt "hello" None)).
  - vm_compute; reflexivity.
  - reflexivity.
  - vm_compute; reflexivity.
  - reflexivity.
Defined.

(** ** Failures of the collaborators *)

Section Failures.

Variable env : Env.

Lemma returns_print s : returns (print s).
Proof. intros w. by exists tt. Qed.

(** A [try] whose handler only prints lets nothing through. *)
Lemma returns_try_except {A} (c : M A) h :
  (∀ e, returns (h e)) → returns (try_except c h).
Proof.
  intros Hh w. unfold try_except.
  destruct (c w) as [[a|e] w1]; [by exists a|apply Hh].
Qed.

Lemma list_resources_returns : returns (list_resources env).
Proof. apply returns_try_except. intros e. apply returns_print. Qed.

Lemma chat_turn_returns agent user_input : returns (chat_turn env agent user_input).
Proof. apply returns_try_except. intros e. apply returns_print. Qed.

Lemma handle_resource_returns command parts :
  Shlex.split (PyStr.strip command) = Ret parts →
  returns (handle_resource env command).
Proof.
  intros Hsplit w. unfold handle_resource, bind at 1, lift. rewrite Hsplit.
  destruct parts as [|x [|resource_id rest]]; try apply returns_print.
  apply returns_try_except. intros e. apply returns_print.
Qed.

Lemma handle_prompt_returns tools command agent parts :
  Shlex.split (PyStr.strip command) = Ret parts →
  returns (handle_prompt env tools command agent).
Proof.
  intros Hsplit w. unfold handle_prompt, bind at 1, lift. rewrite Hsplit.
  destruct parts as [|x [|prompt_name args]]; try apply returns_print.
  apply returns_try_except. intros e. apply returns_print.
Qed.

(** [list_prompts] has no handler: a failing listing request leaves it. *)
Lemma list_prompts_raises w e :
  srv_list_prompts env (length (w_calls w)) = Raise e →
  list_prompts env w = (Raise e, sent CallListPrompts w).
Proof. intros H. unfold list_prompts, bind, remote. by rewrite H. Qed.

(** And so it leaves the loop: the lines that follow are never read. *)
Lemma interactive_loop_list_prompts_raises tools agent line lines w e :
  is_exit (PyStr.strip line) = false →
  PyStr.startswith (PyStr.strip line) "/prompts" = true →
  srv_list_prompts env (length (w_calls w)) = Raise e →
  interactive_loop env tools agent (line :: lines) w
  = (Raise e, sent CallListPrompts w).
Proof.
  intros Hexit Hcmd Hfail. cbn [interactive_loop]. rewrite Hexit, Hcmd.
  unfold bind. by rewrite (list_prompts_raises w e Hfail).
Qed.

End Failures.

(** C3 fails on [/prompts].  With the connection lost, the failures of
    [/resources], [/resource], [/prompt] and of a plain turn are each
    reported on a line and the loop goes on; the failure of [/prompts]
    leaves [main] as an exception, and the lines typed after it are never
    read. *)
Theorem list_prompts_failure_ends_session :
  let run :=
    main Example.env_down
      ["/resources"; "/resource 1"; "/prompt summarize Paris"; "hello";
       "/prompts"; "hello again"; "q"] init_world in
  run.1 = Raise Example.closed
  ∧ w_out run.2
    = banner ++
      ["Failed to list resources: Connection closed";
       "Resource fetch failed: Connection closed";
       "Prompt invocation failed: Connection closed";
       "Error: model endpoint unreachable"]
  ∧ w_invokes run.2 = [mkInvocation "wiki-session" (OneStr "hello")].
Proof. cbv zeta. repeat split; vm_compute; reflexivity. Qed.

(** ** The graph on the example session *)

(** The first model call of the example asks for tools, so the graph goes to
    the tool node, and from there back to the chat node. *)
Lemma graph_routing_example :
  graph_step Example.env ["search"] "wiki-session" CHAT_NODE
    [Example.question] Example.asked
  = (Ret (TOOL_NODE, [Example.question; Example.request]),
     after_chat_step "wiki-session" [Example.question; Example.request]
       Example.asked)
  ∧ ∃ state' w',
      graph_step Example.env ["search"] "wiki-session" TOOL_NODE
        [Example.question; Example.request] Example.requested
      = (Ret (CHAT_NODE, state'), w').
Proof.
  split.
  - assert (Hids : ids_below (w_next_id Example.asked) [Example.question]).
    { repeat constructor. exists 0. split; [reflexivity|simpl; lia]. }
    destruct (graph_routing Example.env ["search"] "wiki-session"
                [Example.question] Example.asked Hids) as [Hchat _].
    destruct (Hchat Example.first_request eq_refl) as (next & Hstep & Htool & _).
    rewrite Hstep. f_equal. f_equal. f_equal. by apply Htool.
  - assert (Hids : ids_below (w_next_id Example.requested)
                     [Example.question; Example.request]).
    { repeat constructor; [exists 0|exists 1]; (split; [reflexivity|simpl; lia]). }
    destruct (graph_routing Example.env ["search"] "wiki-session"
                [Example.question; Example.request] Example.requested Hids)
      as (_ & Htool & _).
    destruct (Htool Example.request eq_refl eq_refl) as (state' & w' & Hstep & _).
    by exists state', w'.
Defined.

(** Two requests, two results, in the order of the requests. *)
Lemma tool_step_appends_results_example :
  ∃ results w',
    graph_step Example.env ["search"] "wiki-session" TOOL_NODE
      [Example.question; Example.request] Example.requested
    = (Ret (CHAT_NODE, [Example.question; Example.request] ++ results), w')
    ∧ length results = 2
    ∧ (∀ i call, msg_tool_calls Example.request !! i = Some call →
         ∃ m, results !! i = Some m
              ∧ msg_role m = ToolRole
              ∧ msg_tool_call_id m = Some (tc_id call))
    ∧ history "wiki-session" w' = [Example.question; Example.request] ++ results.
Proof.
  apply (tool_step_appends_results Example.env ["search"] "wiki-session"
           [Example.question; Example.request] Example.requested Example.request).
  - repeat constructor; [exists 0|exists 1]; (split; [reflexivity|simpl; lia]).
  - reflexivity.
  - reflexivity.
Defined.

(** The reasoning step of the example keeps the question in place. *)
Lemma step_append_only_example :
  [Example.question] `prefix_of` [Example.question; Example.request]
  ∧ ids_below 2 [Example.question; Example.request]
  ∧ history "wiki-session"
      (after_chat_step "wiki-session" [Example.question; Example.request]
         Example.asked)
    = [Example.question; Example.request].
Proof.
  apply (step_append_only Example.env ["search"] "wiki-session" CHAT_NODE
           TOOL_NODE [Example.question] [Example.question; Example.request]
           Example.asked
           (after_chat_step "wiki-session" [Example.question; Example.request]
              Example.asked)).
  - repeat constructor. exists 0. split; [reflexivity|simpl; lia].
  - vm_compute; reflexivity.
Defined.

(** A turn answered at once, on the second model call of the example. *)
Lemma turn_without_tool_calls_example :
  let w := mkWorld [] [] [] 1 ∅ 0 in
  ∃ w',
    ainvoke Example.env ["search"] (OneStr "And of Italy?") "wiki-session" w
    = (Ret (history "wiki-session" w
            ++ [with_id 0 (HumanMessage "And of Italy?");
                with_id (0 + 1) (AIMessage (mkAIReply "Paris" []))]), w')
    ∧ history "wiki-session" w'
      = history "wiki-session" w
        ++ [with_id 0 (HumanMessage "And of Italy?");
            with_id (0 + 1) (AIMessage (mkAIReply "Paris" []))]
    ∧ msg_role (with_id 0 (HumanMessage "And of Italy?")) = HumanRole
    ∧ msg_role (with_id (0 + 1) (AIMessage (mkAIReply "Paris" []))) = AIRole
    ∧ length (history "wiki-session" w') = length (history "wiki-session" w) + 2.
Proof.
  cbv zeta.
  apply (turn_without_tool_calls_adds_two Example.env ["search"]
           (OneStr "And of Italy?") "wiki-session" "And of Italy?"
           (mkWorld [] [] [] 1 ∅ 0) (mkAIReply "Paris" [])).
  - intros thread l H. simpl in H. by rewrite lookup_empty in H.
  - by left.
  - reflexivity.
  - reflexivity.
Defined.

(** * Further properties of the shell *)

(** ** Printing loops *)

Section Printing.

Lemma printed_all_nil w : printed_all [] w = w.
Proof. destruct w. unfold printed_all. simpl. by rewrite app_nil_r. Qed.

Lemma printed_all_app ls1 ls2 w :
  printed_all ls2 (printed_all ls1 w) = printed_all (ls1 ++ ls2) w.
Proof. unfold printed_all. simpl. by rewrite app_assoc. Qed.

Lemma printed_one s w : printed s w = printed_all [s] w.
Proof. reflexivity. Qed.

(** A loop whose body only prints, prints the lines of its items in order. *)
Lemma for_each_printed {A} (l : list A) (body : A → M unit) (lines : A → list string) :
  (∀ x w, body x w = (Ret tt, printed_all (lines x) w)) →
  ∀ w, for_each l body w = (Ret tt, printed_all (concat (lines <$> l)) w).
Proof.
  intros Hbody. induction l as [|x l IH]; intros w; simpl.
  - unfold ret. by rewrite printed_all_nil.
  - unfold bind. rewrite Hbody, IH. by rewrite printed_all_app.
Qed.

Lemma concat_singletons {A B} (f : A → B) (l : list A) :
  concat ((λ x, [f x]) <$> l) = f <$> l.
Proof.
  induction l as [|x l IH]; [done|].
  rewrite !fmap_cons. cbn [concat app]. by f_equal.
Qed.

End Printing.

(** ** Listing and reading resources *)

Section ResourceExtras.

Variable env : Env.

Lemma elem_of_enumerate {A} (l : list A) : ∀ start k x,
  (k, x) ∈ PyStr.enumerate start l ↔ ∃ i, k = start + i ∧ l !! i = Some x.
Proof.
  induction l as [|y l IH]; intros start k x; simpl.
  - split; [by intros ?%elem_of_nil|by intros (i & _ & ?)].
  - rewrite elem_of_cons, IH. split.
    + intros [[= -> ->]|(i & -> & Hi)].
      * exists 0. split; [lia|done].
      * exists (S i). split; [lia|done].
    + intros ([|i] & -> & Hi); simpl in Hi.
      * left. injection Hi as ->. f_equal. lia.
      * right. exists i. split; [lia|done].
Qed.

(** The entries of the dictionary are the numbered names, and nothing else. *)
Lemma fold_entries_sound (rs : list Resource) : ∀ start d k v,
  foldl add_entry d (PyStr.enumerate start rs) !! k = Some v →
  d !! k = Some v
  ∨ ∃ i r, k = PyStr.str_of_nat (start + i + 1) ∧ rs !! i = Some r ∧ v = r_name r.
Proof.
  induction rs as [|r rs IH]; intros start d k v H; simpl in H; [by left|].
  destruct (IH _ _ _ _ H) as [Hd|(i & r' & -> & Hi & ->)].
  - unfold add_entry in Hd; simpl in Hd.
    destruct (decide (PyStr.str_of_nat (start + 1) = k)) as [<-|Hne].
    + rewrite lookup_insert_eq in Hd. injection Hd as <-.
      right. exists 0, r. split; [f_equal; lia|done].
    + rewrite lookup_insert_ne in Hd by done. by left.
  - right. exists (S i), r'. split; [f_equal; lia|done].
Qed.

Lemma list_resources_lines w rs :
  srv_list_resources env (length (w_calls w)) = Ret rs →
  list_resources env w
  = (Ret tt, printed_all (resource_listing_lines rs) (sent CallListResources w)).
Proof.
  intros Hlist. unfold list_resources.
  erewrite try_except_bind_ret by (unfold remote; rewrite Hlist; reflexivity).
  destruct rs as [|r rs]; [reflexivity|].
  set (rs' := r :: rs). unfold try_except, bind at 1, print at 1.
  unfold bind at 1.
  rewrite (for_each_printed _ _
             (λ ir, ["[" +:+ PyStr.str_of_nat ir.1 +:+ "] " +:+ r_name ir.2]))
    by reflexivity.
  unfold print. rewrite !printed_one, !printed_all_app.
  rewrite (concat_singletons
             (λ ir : nat * Resource,
                "[" +:+ PyStr.str_of_nat ir.1 +:+ "] " +:+ r_name ir.2)).
  reflexivity.
Qed.

(** X1.  When the listing request succeeds, [/resources] prints one numbered
    line per resource, with a header and a footer around them, or a single
    line for an empty listing.  Each number it prints is an identifier that
    [/resource] accepts on the same listing, and it resolves to the first
    resource bearing the name printed next to it. *)
Theorem list_resources_numbers_resolve (w : World) (rs : list Resource) :
  srv_list_resources env (length (w_calls w)) = Ret rs →
  list_resources env w
  = (Ret tt, printed_all (resource_listing_lines rs) (sent CallListResources w))
  ∧ ∀ k r, (k, r) ∈ PyStr.enumerate 1 rs →
      "[" +:+ PyStr.str_of_nat k +:+ "] " +:+ r_name r ∈ resource_listing_lines rs
      ∧ resolve_resource rs (PyStr.str_of_nat k)
        = List.find (λ r', bool_decide (r_name r' = r_name r)) rs.
Proof.
  intros Hlist. split; [by apply list_resources_lines|].
  intros k r Hk. split.
  - destruct rs as [|r0 rs]; [by apply elem_of_nil in Hk|].
    unfold resource_listing_lines. apply elem_of_cons. right.
    apply elem_of_app. left.
    apply (list_elem_of_fmap_2
             (λ ir : nat * Resource,
                "[" +:+ PyStr.str_of_nat ir.1 +:+ "] " +:+ r_name ir.2)
             _ (k, r) Hk).
  - apply elem_of_enumerate in Hk as (i & -> & Hi).
    replace (1 + i) with (i + 1) by lia. by apply resolve_position.
Qed.

(** X2.  When the listing request fails, [/resources] reports the failure on
    one line and returns; nothing else is sent. *)
Theorem list_resources_failure_reported (w : World) (e : exn) :
  srv_list_resources env (length (w_calls w)) = Raise e →
  list_resources env w
  = (Ret tt, printed ("Failed to list resources: " +:+ exn_str e)
               (sent CallListResources w)).
Proof.
  intros Hlist. unfold list_resources.
  by erewrite try_except_bind_raise by (unfold remote; rewrite Hlist; reflexivity).
Qed.

(** X3.  Once the identifier resolves and the content is fetched,
    [/resource] prints the text blocks, each under its header and in the
    order received, and passes over the blocks that carry no text. *)
Theorem handle_resource_prints_text_blocks
    (w : World) (command x resource_id : string) (rest : list string)
    (rs : list Resource) (match_ : Resource) (contents : list ResourceContents) :
  Shlex.split (PyStr.strip command) = Ret (x :: resource_id :: rest) →
  srv_list_resources env (length (w_calls w)) = Ret rs →
  resolve_resource rs resource_id = Some match_ →
  srv_read_resource env (length (w_calls w) + 1) (r_uri match_) = Ret contents →
  handle_resource env command w
  = (Ret tt,
     printed_all (text_block_lines contents)
       (sent (CallReadResource (r_uri match_)) (sent CallListResources w))).
Proof.
  intros Hsplit Hlist Hres Hread.
  rewrite (handle_resource_some env command w _ _ _ rs match_ Hsplit Hlist Hres).
  unfold fetch_and_print.
  erewrite try_except_bind_ret; cycle 1.
  { unfold remote. cbn [sent w_calls]. rewrite length_app. cbn [length].
    rewrite Hread. reflexivity. }
  unfold try_except.
  rewrite (for_each_printed contents _
             (λ c, match c with
                   | TextResourceContents text => [nl +:+ "=== Resource Text ==="; text]
                   | BlobResourceContents _ => []
                   end)); [reflexivity|].
  intros [text|blob] w'; [|unfold ret; by rewrite printed_all_nil].
  unfold bind, print. by rewrite !printed_one, printed_all_app.
Qed.

(** X4.  A failure of the listing request, or of the read request that
    follows a successful resolution, is reported by [/resource] on one line;
    the command returns. *)
Theorem handle_resource_failure_reported
    (w : World) (command x resource_id : string) (rest : list string) (e : exn) :
  Shlex.split (PyStr.strip command) = Ret (x :: resource_id :: rest) →
  (srv_list_resources env (length (w_calls w)) = Raise e →
   handle_resource env command w
   = (Ret tt, printed ("Resource fetch failed: " +:+ exn_str e)
                (sent CallListResources w)))
  ∧ (∀ rs match_,
       srv_list_resources env (length (w_calls w)) = Ret rs →
       resolve_resource rs resource_id = Some match_ →
       srv_read_resource env (length (w_calls w) + 1) (r_uri match_) = Raise e →
       handle_resource env command w
       = (Ret tt, printed ("Resource fetch failed: " +:+ exn_str e)
                    (sent (CallReadResource (r_uri match_))
                       (sent CallListResources w)))).
Proof.
  intros Hsplit. split.
  - intros Hlist. unfold handle_resource, bind at 1, lift. rewrite Hsplit.
    by erewrite try_except_bind_raise
      by (unfold remote; rewrite Hlist; reflexivity).
  - intros rs match_ Hlist Hres Hread.
    rewrite (handle_resource_some env command w _ _ _ rs match_ Hsplit Hlist Hres).
    unfold fetch_and_print.
    erewrite try_except_bind_raise; [reflexivity|].
    unfold remote. cbn [sent w_calls]. rewrite length_app. cbn [length].
    by rewrite Hread.
Qed.

End ResourceExtras.

(** ** Resolution of identifiers *)

Section ResolutionExtras.

Variable env : Env.

Lemma find_none_iff {A} (f : A → bool) (l : list A) :
  (∀ x, x ∈ l → f x = false) → List.find f l = None.
Proof.
  induction l as [|y l IH]; intros H; simpl; [done|].
  rewrite (H y) by apply list_elem_of_here.
  apply IH. intros x Hx. apply H. by apply list_elem_of_further.
Qed.

Lemma resource_map_sound (rs : list Resource) k v :
  resource_map rs !! k = Some v →
  ∃ i r, k = PyStr.str_of_nat (i + 1) ∧ rs !! i = Some r ∧ v = r_name r.
Proof.
  rewrite resource_map_unfold. intros H.
  destruct (fold_entries_sound rs 0 ∅ k v H) as [Hd|(i & r & -> & Hi & ->)].
  - by rewrite lookup_empty in Hd.
  - by exists i, r.
Qed.

(** X5.  Whatever identifier is typed, the resource that is read is one of
    the listing, and it bears either the identifier as its name or the name
    listed at the position the identifier denotes: nothing else is ever
    fetched. *)
Theorem resolve_resource_sound
    (rs : list Resource) (resource_id : string) (r : Resource) :
  resolve_resource rs resource_id = Some r →
  r ∈ rs
  ∧ (r_name r = resource_id
     ∨ ∃ i r0, resource_id = PyStr.str_of_nat (i + 1)
               ∧ rs !! i = Some r0 ∧ r_name r = r_name r0).
Proof.
  unfold resolve_resource. intros H.
  apply List.find_some in H as [Hin Hname].
  apply bool_decide_eq_true in Hname.
  split; [by apply list_elem_of_In|].
  destruct (resource_map rs !! resource_id) as [v|] eqn:Hmap; simpl in Hname.
  - right. destruct (resource_map_sound rs _ _ Hmap) as (i & r0 & -> & Hi & ->).
    by exists i, r0.
  - by left.
Qed.

(** X6.  A numeral that is not a position of the listing, zero or a number
    above its length, is taken as a name: unless a resource is literally
    named so, [/resource] reports that it is not found and reads nothing. *)
Theorem handle_resource_position_out_of_range
    (w : World) (command x : string) (rest : list string)
    (rs : list Resource) (k : nat) :
  Shlex.split (PyStr.strip command) = Ret (x :: PyStr.str_of_nat k :: rest) →
  srv_list_resources env (length (w_calls w)) = Ret rs →
  k = 0 ∨ length rs < k →
  (∀ r, r ∈ rs → r_name r ≠ PyStr.str_of_nat k) →
  resolve_resource rs (PyStr.str_of_nat k) = None
  ∧ handle_resource env command w
    = (Ret tt, printed ("Resource '" +:+ PyStr.str_of_nat k +:+ "' not found.")
                 (sent CallListResources w)).
Proof.
  intros Hsplit Hlist Hk Hnames.
  assert (Hres : resolve_resource rs (PyStr.str_of_nat k) = None).
  { rewrite resolve_name.
    - apply find_none_iff. intros r Hr. apply bool_decide_eq_false. by apply Hnames.
    - intros i Hi E. apply str_of_nat_inj in E. lia. }
  split; [done|].
  by apply (handle_resource_none env command w x _ rest rs).
Qed.

(** X7.  A resource whose name is not the numeral of a position, and that
    no earlier resource shares, is the one read when its name is typed. *)
Theorem resolve_by_name (rs : list Resource) (i : nat) (r : Resource) :
  rs !! i = Some r →
  (∀ j, j < length rs → r_name r ≠ PyStr.str_of_nat (j + 1)) →
  (∀ j r', j < i → rs !! j = Some r' → r_name r' ≠ r_name r) →
  resolve_resource rs (r_name r) = Some r.
Proof.
  intros Hi Hnum Hfirst. rewrite resolve_name by done.
  by apply (find_first_named rs i).
Qed.

End ResolutionExtras.

(** The listing of the example server, as [/resources] prints it. *)
Lemma list_resources_numbers_resolve_example :
  list_resources Example.env init_world
  = (Ret tt,
     printed_all
       [nl +:+ "Available Resources:"; "[1] intro"; "[2] history"; "[3] links";
        nl +:+ "Use: /resource <name> to view its content."]
       (sent CallListResources init_world))
  ∧ resolve_resource Example.resources (PyStr.str_of_nat 2)
    = Some (mkResource "history" "wiki://history").
Proof.
  destruct (list_resources_numbers_resolve Example.env init_world
              Example.resources eq_refl) as [Hlines Hres].
  split; [exact Hlines|].
  destruct (Hres 2 (mkResource "history" "wiki://history")) as [_ ->].
  - apply list_elem_of_further, list_elem_of_here.
  - vm_compute; reflexivity.
Defined.

(** The listing request once the connection is lost. *)
Lemma list_resources_failure_reported_example :
  list_resources Example.env_down init_world
  = (Ret tt, printed "Failed to list resources: Connection closed"
               (sent CallListResources init_world)).
Proof.
  apply (list_resources_failure_reported Example.env_down init_world
           Example.closed).
  reflexivity.
Defined.

(** The example server answers a read by a text block and a blob. *)
Lemma handle_resource_prints_text_blocks_example :
  handle_resource Example.env "/resource links" init_world
  = (Ret tt,
     printed_all [nl +:+ "=== Resource Text ==="; "text of wiki://links"]
       (sent (CallReadResource "wiki://links")
          (sent CallListResources init_world))).
Proof.
  apply (handle_resource_prints_text_blocks Example.env init_world
           "/resource links" "/resource" "links" [] Example.resources
           (mkResource "links" "wiki://links")
           [TextResourceContents "text of wiki://links";
            BlobResourceContents "0000"]).
  - vm_compute; reflexivity.
  - reflexivity.
  - vm_compute; reflexivity.
  - reflexivity.
Defined.

(** Reading a resource once the connection is lost. *)
Lemma handle_resource_failure_reported_example :
  handle_resource Example.env_down "/resource intro" init_world
  = (Ret tt, printed "Resource fetch failed: Connection closed"
               (sent CallListResources init_world)).
Proof.
  destruct (handle_resource_failure_reported Example.env_down init_world
              "/resource intro" "/resource" "intro" [] Example.closed)
    as [Hlist _].
  - vm_compute; reflexivity.
  - apply Hlist. reflexivity.
Defined.

(** What the identifier 2 reads on the example listing. *)
Lemma resolve_resource_sound_example :
  mkResource "history" "wiki://history" ∈ Example.resources
  ∧ (r_name (mkResource "history" "wiki://history") = "2"
     ∨ ∃ i r0, "2" = PyStr.str_of_nat (i + 1)
               ∧ Example.resources !! i = Some r0
               ∧ r_name (mkResource "history" "wiki://history") = r_name r0).
Proof.
  apply (resolve_resource_sound Example.resources "2").
  vm_compute; reflexivity.
Defined.

(** Three resources are listed: there is no fourth. *)
Lemma handle_resource_position_out_of_range_example :
  resolve_resource Example.resources (PyStr.str_of_nat 4) = None
  ∧ handle_resource Example.env "/resource 4" init_world
    = (Ret tt, printed ("Resource '" +:+ PyStr.str_of_nat 4 +:+ "' not found.")
                 (sent CallListResources init_world)).
Proof.
  apply (handle_resource_position_out_of_range Example.env init_world
           "/resource 4" "/resource" [] Example.resources 4).
  - vm_compute; reflexivity.
  - reflexivity.
  - right. simpl. lia.
  - intros r Hr. unfold Example.resources in Hr.
    repeat (apply elem_of_cons in Hr as [->|Hr]; [vm_compute; discriminate|]).
    by apply elem_of_nil in Hr.
Defined.

(** The second resource of the example, by its name. *)
Lemma resolve_by_name_example :
  resolve_resource Example.resources "history"
  = Some (mkResource "history" "wiki://history").
Proof.
  apply (resolve_by_name Example.resources 1
           (mkResource "history" "wiki://history")).
  - reflexivity.
  - intros j Hj. simpl in Hj.
    destruct j as [|[|[|j]]]; [vm_compute; discriminate ..|lia].
  - intros j r' Hj Hr'. destruct j as [|j]; [|lia].
    injection Hr' as <-. vm_compute. discriminate.
Defined.

(** ** One turn answered at once *)

Section DirectAnswer.

Variable env : Env.
Variable tools : list string.

Lemma last_two {A} (l : list A) (x y : A) : last (l ++ [x; y]) = Some y.
Proof. change (l ++ [x; y]) with (l ++ [x] ++ [y]). by rewrite app_assoc, last_snoc. Qed.

(** The world after a turn in which the model answers without a tool. *)
Lemma ainvoke_answer (input : Messages) (thread s : string) (w : World)
    (reply : AIReply) :
  wf_world w →
  convert_to_messages input = [HumanMessage s] →
  model_reply env (w_model w)
    (SystemMessage system_prompt
       :: history thread w ++ [with_id (w_next_id w) (HumanMessage s)])
  = Ret reply →
  ai_tool_calls reply = [] →
  ainvoke env tools input thread w
  = (Ret (history thread w
          ++ [with_id (w_next_id w) (HumanMessage s);
              with_id (w_next_id w + 1) (AIMessage reply)]),
     mkWorld (w_out w) (w_calls w) (w_invokes w ++ [mkInvocation thread input])
       (S (w_model w))
       (<[thread := history thread w
                    ++ [with_id (w_next_id w) (HumanMessage s);
                        with_id (w_next_id w + 1) (AIMessage reply)]]>
          (w_store w))
       (w_next_id w + 1 + 1)).
Proof.
  intros Hwf Hconv Hreply Hnone.
  pose proof (wf_history thread w Hwf) as Hids.
  rewrite (ainvoke_start env tools thread input w Hids)
    by (rewrite Hconv; by repeat constructor).
  rewrite Hconv. cbn [stamp length].
  change recursion_limit with (S 24).
  rewrite run_graph_step by done. unfold bind at 1.
  erewrite chat_step; cycle 1.
  - cbn [w_next_id]. apply ids_below_app.
    + eapply ids_below_mono; [|exact Hids]. lia.
    + constructor; [|constructor]. eexists. split; [reflexivity|lia].
  - cbn [w_model w_next_id]. exact Hreply.
  - rewrite Hnone. cbn [fst snd]. rewrite run_graph_end.
    unfold ret, assistant_message, after_chat_step.
    cbn [w_store w_next_id w_model w_out w_calls w_invokes].
    rewrite <- app_assoc. cbn [app]. by rewrite insert_insert_eq.
Qed.

(** The world after a turn in which the model call fails at once. *)
Lemma ainvoke_model_fails (input : Messages) (thread s : string) (w : World)
    (e : exn) :
  wf_world w →
  convert_to_messages input = [HumanMessage s] →
  model_reply env (w_model w)
    (SystemMessage system_prompt
       :: history thread w ++ [with_id (w_next_id w) (HumanMessage s)])
  = Raise e →
  ainvoke env tools input thread w
  = (Raise e,
     mkWorld (w_out w) (w_calls w) (w_invokes w ++ [mkInvocation thread input])
       (S (w_model w))
       (<[thread := history thread w ++ [with_id (w_next_id w) (HumanMessage s)]]>
          (w_store w))
       (w_next_id w + 1)).
Proof.
  intros Hwf Hconv Hreply.
  pose proof (wf_history thread w Hwf) as Hids.
  rewrite (ainvoke_start env tools thread input w Hids)
    by (rewrite Hconv; by repeat constructor).
  rewrite Hconv. cbn [stamp length].
  change recursion_limit with (S 24).
  rewrite run_graph_step by done. unfold bind at 1.
  by erewrite chat_step_fails by (cbn [w_model]; exact Hreply).
Qed.

End DirectAnswer.

(** ** Invoking a prompt *)

Section PromptExtras.

Variable env : Env.

Lemma handle_prompt_found tools command agent w x prompt_name args prompts
    match_ arguments :
  Shlex.split (PyStr.strip command) = Ret (x :: prompt_name :: args) →
  srv_list_prompts env (length (w_calls w)) = Ret prompts →
  List.find (λ p, bool_decide (p_name p = prompt_name)) prompts = Some match_ →
  p_arguments match_ = Some arguments →
  length args = length arguments →
  handle_prompt env tools command agent w
  = try_except
      (let! response :=
         remote (CallGetPrompt prompt_name (bind_arguments arguments args))
           (λ n, srv_get_prompt env n prompt_name
                   (bind_arguments arguments args)) in
       let! first := first_item response in
       let! prompt_text := text_of (pm_content first) in
       let! agent_response :=
         ainvoke env (agent_tools agent)
           (ManyMessages [HumanMessage prompt_text]) "wiki-session" in
       print (nl +:+ "=== Prompt Result ===") ;;;
       let! answer := last_item agent_response in
       print (msg_content answer))
      (λ e, print ("Prompt invocation failed: " +:+ exn_str e))
      (sent CallListPrompts w).
Proof.
  intros Hsplit Hlist Hfind Hargs Hlen.
  rewrite (handle_prompt_declared env tools command agent w x prompt_name args
             prompts match_ arguments Hsplit Hlist Hfind Hargs).
  by rewrite bool_decide_eq_false_2 by (by intros ?).
Qed.

(** X8.  A prompt name that the server does not list is reported on one
    line: the listing is the only request sent, and the agent is not
    invoked. *)
Theorem handle_prompt_not_found
    (tools : list string) (command : string) (agent : Agent) (w : World)
    (x prompt_name : string) (args : list string) (prompts : list Prompt) :
  Shlex.split (PyStr.strip command) = Ret (x :: prompt_name :: args) →
  srv_list_prompts env (length (w_calls w)) = Ret prompts →
  (∀ p, p ∈ prompts → p_name p ≠ prompt_name) →
  handle_prompt env tools command agent w
  = (Ret tt, printed ("Prompt '" +:+ prompt_name +:+ "' not found.")
               (sent CallListPrompts w)).
Proof.
  intros Hsplit Hlist Hnone.
  unfold handle_prompt, bind at 1, lift. rewrite Hsplit.
  erewrite try_except_bind_ret by (unfold remote; rewrite Hlist; reflexivity).
  rewrite find_none_iff; [reflexivity|].
  intros p Hp. apply bool_decide_eq_false. by apply Hnone.
Qed.

Lemma fold_bind_other (decl : list PromptArgument) :
  ∀ (args : list string) (d : gmap string string) k,
  k ∉ pa_name <$> decl →
  foldl (λ d av, <[pa_name av.1 := av.2]> d) d (zip decl args) !! k = d !! k.
Proof.
  induction decl as [|a decl IH]; intros args d k Hk; [done|].
  destruct args as [|v args]; [done|].
  rewrite fmap_cons in Hk. apply not_elem_of_cons in Hk as [Hne Hk].
  simpl. rewrite IH by done. by rewrite lookup_insert_ne.
Qed.

Lemma fold_bind_lookup (decl : list PromptArgument) :
  ∀ (args : list string) (d : gmap string string) i a v,
  NoDup (pa_name <$> decl) →
  decl !! i = Some a →
  args !! i = Some v →
  foldl (λ d av, <[pa_name av.1 := av.2]> d) d (zip decl args) !! pa_name a
  = Some v.
Proof.
  induction decl as [|a0 decl IH]; intros args d i a v Hnd Ha Hv; [done|].
  destruct args as [|v0 args]; [done|].
  rewrite fmap_cons in Hnd. apply NoDup_cons in Hnd as [Hfresh Hnd].
  destruct i as [|i]; simpl in Ha, Hv.
  - injection Ha as ->. injection Hv as ->. simpl.
    rewrite fold_bind_other by done. apply lookup_insert_eq.
  - simpl. by apply (IH args _ i).
Qed.

(** X9.  The arguments typed are bound to the declared names by position:
    when the declared names are distinct, the i-th name is sent with the
    i-th argument, and no other name is sent. *)
Theorem bind_arguments_positional
    (arguments : list PromptArgument) (args : list string) :
  NoDup (pa_name <$> arguments) →
  (∀ i a v, arguments !! i = Some a → args !! i = Some v →
     bind_arguments arguments args !! pa_name a = Some v)
  ∧ (∀ k, k ∉ pa_name <$> arguments → bind_arguments arguments args !! k = None).
Proof.
  intros Hnd. split.
  - intros i a v Ha Hv. by apply (fold_bind_lookup arguments args ∅ i).
  - intros k Hk. unfold bind_arguments. by rewrite fold_bind_other.
Qed.

(** X10.  For a matched prompt that declares its arguments and is given as
    many: when the get-prompt request fails, or its answer has no message,
    or its first message is of a class that carries no text, the failure is
    reported on one line and the agent is not invoked. *)
Theorem handle_prompt_unusable_rendering
    (tools : list string) (command : string) (agent : Agent) (w : World)
    (x prompt_name : string) (args : list string)
    (prompts : list Prompt) (match_ : Prompt)
    (arguments : list PromptArgument) (e : exn) :
  Shlex.split (PyStr.strip command) = Ret (x :: prompt_name :: args) →
  srv_list_prompts env (length (w_calls w)) = Ret prompts →
  List.find (λ p, bool_decide (p_name p = prompt_name)) prompts = Some match_ →
  p_arguments match_ = Some arguments →
  length args = length arguments →
  (srv_get_prompt env (length (w_calls w) + 1) prompt_name
     (bind_arguments arguments args) = Raise e
   ∨ (srv_get_prompt env (length (w_calls w) + 1) prompt_name
        (bind_arguments arguments args) = Ret []
      ∧ e = Exn IndexError "list index out of range")
   ∨ (∃ class rest,
        srv_get_prompt env (length (w_calls w) + 1) prompt_name
          (bind_arguments arguments args)
        = Ret (mkPromptMessage (OtherContent class) :: rest)
        ∧ e = Exn AttributeError
                ("'" +:+ class +:+ "' object has no attribute 'text'"))) →
  handle_prompt env tools command agent w
  = (Ret tt,
     printed ("Prompt invocation failed: " +:+ exn_str e)
       (sent (CallGetPrompt prompt_name (bind_arguments arguments args))
          (sent CallListPrompts w))).
Proof.
  intros Hsplit Hlist Hfind Hargs Hlen Hget.
  rewrite (handle_prompt_found tools command agent w x prompt_name args prompts
             match_ arguments Hsplit Hlist Hfind Hargs Hlen).
  assert (Hlen' : length (w_calls (sent CallListPrompts w)) = length (w_calls w) + 1)
    by (cbn [sent w_calls]; rewrite length_app; reflexivity).
  destruct Hget as [Hget|[[Hget ->]|(class & rest & Hget & ->)]].
  - erewrite try_except_bind_raise; [reflexivity|].
    unfold remote. by rewrite Hlen', Hget.
  - erewrite try_except_bind_ret by (unfold remote; rewrite Hlen', Hget; reflexivity).
    reflexivity.
  - erewrite try_except_bind_ret by (unfold remote; rewrite Hlen', Hget; reflexivity).
    reflexivity.
Qed.

(** X11.  A prompt that declares its arguments, invoked with as many,
    rendered by the server as text and answered by the model without a
    tool: the rendered text enters the conversation as a user message under
    the session id, the answer is printed under the result header, and the
    saved history grows by these two messages. *)
Theorem handle_prompt_answered
    (tools : list string) (command : string) (agent : Agent) (w : World)
    (x prompt_name : string) (args : list string)
    (prompts : list Prompt) (match_ : Prompt)
    (arguments : list PromptArgument)
    (text : string) (rest : list PromptMessage) (reply : AIReply) :
  wf_world w →
  Shlex.split (PyStr.strip command) = Ret (x :: prompt_name :: args) →
  srv_list_prompts env (length (w_calls w)) = Ret prompts →
  List.find (λ p, bool_decide (p_name p = prompt_name)) prompts = Some match_ →
  p_arguments match_ = Some arguments →
  length args = length arguments →
  srv_get_prompt env (length (w_calls w) + 1) prompt_name
    (bind_arguments arguments args)
  = Ret (mkPromptMessage (TextContent text) :: rest) →
  model_reply env (w_model w)
    (SystemMessage system_prompt
       :: history "wiki-session" w ++ [with_id (w_next_id w) (HumanMessage text)])
  = Ret reply →
  ai_tool_calls reply = [] →
  ∃ w',
    handle_prompt env tools command agent w = (Ret tt, w')
    ∧ w_out w' = w_out w ++ [nl +:+ "=== Prompt Result ==="; ai_content reply]
    ∧ w_calls w'
      = w_calls w
        ++ [CallListPrompts;
            CallGetPrompt prompt_name (bind_arguments arguments args)]
    ∧ w_invokes w'
      = w_invokes w
        ++ [mkInvocation "wiki-session" (ManyMessages [HumanMessage text])]
    ∧ history "wiki-session" w'
      = history "wiki-session" w
        ++ [with_id (w_next_id w) (HumanMessage text);
            with_id (w_next_id w + 1) (AIMessage reply)].
Proof.
  intros Hwf Hsplit Hlist Hfind Hargs Hlen Hget Hreply Hnone.
  rewrite (handle_prompt_found tools command agent w x prompt_name args prompts
             match_ arguments Hsplit Hlist Hfind Hargs Hlen).
  set (get := CallGetPrompt prompt_name (bind_arguments arguments args)).
  assert (Hlen' : length (w_calls (sent CallListPrompts w)) = length (w_calls w) + 1)
    by (cbn [sent w_calls]; rewrite length_app; reflexivity).
  erewrite try_except_bind_ret by (unfold remote; rewrite Hlen', Hget; reflexivity).
  cbn [first_item head]. erewrite try_except_bind_ret by reflexivity.
  cbn [text_of pm_content]. erewrite try_except_bind_ret by reflexivity.
  erewrite try_except_bind_ret; cycle 1.
  { apply (ainvoke_answer env (agent_tools agent)
             (ManyMessages [HumanMessage text]) "wiki-session" text
             (sent get (sent CallListPrompts w)) reply);
      [exact Hwf|reflexivity|exact Hreply|exact Hnone]. }
  unfold try_except, bind at 1, print at 1.
  unfold last_item. rewrite last_two. unfold bind, ret, print.
  eexists. split; [reflexivity|].
  cbn [printed sent w_out w_calls w_invokes w_store].
  split; [by rewrite <- app_assoc|].
  split; [by rewrite <- app_assoc|].
  split; [reflexivity|].
  unfold history at 1, printed, sent. cbn [w_store].
  by rewrite lookup_insert_eq.
Qed.

End PromptExtras.

Section PromptListing.

Variable env : Env.

Lemma prompt_body_lines (p : Prompt) (w : World) :
  (print (nl +:+ "Prompt: " +:+ p_name p) ;;;
   match p_arguments p with
   | Some (_ :: _ as arguments) =>
       for_each arguments (λ arg, print ("  - " +:+ pa_name arg))
   | Some [] | None => print "  - No arguments required."
   end) w
  = (Ret tt, printed_all (prompt_lines p) w).
Proof.
  unfold bind, print at 1, prompt_lines.
  destruct (p_arguments p) as [[|a l]|] eqn:Hargs.
  - unfold print. by rewrite !printed_one, printed_all_app.
  - rewrite (for_each_printed _ _ (λ arg, ["  - " +:+ pa_name arg])) by reflexivity.
    rewrite printed_one, printed_all_app.
    by rewrite (concat_singletons (λ arg, "  - " +:+ pa_name arg)).
  - unfold print. by rewrite !printed_one, printed_all_app.
Qed.

(** X12.  When the listing request succeeds, [/prompts] prints, for every
    prompt in the order listed, its name followed by its declared argument
    names in their declared order, or by a line saying that it takes none;
    an empty listing gives a single line. *)
Theorem list_prompts_lines (w : World) (ps : list Prompt) :
  srv_list_prompts env (length (w_calls w)) = Ret ps →
  list_prompts env w
  = (Ret tt, printed_all (prompt_listing_lines ps) (sent CallListPrompts w)).
Proof.
  intros Hlist. unfold list_prompts, bind at 1, remote. rewrite Hlist.
  destruct ps as [|p ps]; [reflexivity|].
  set (ps' := p :: ps). unfold bind at 1, print at 1. unfold bind at 1.
  rewrite (for_each_printed ps' _ prompt_lines) by apply prompt_body_lines.
  unfold print. by rewrite !printed_one, !printed_all_app.
Qed.

(** X13.  A [/prompt] or [/resource] command with nothing after the command
    word prints its usage line; no request is sent. *)
Theorem missing_argument_prints_usage
    (tools : list string) (agent : Agent) (command : string)
    (parts : list string) (w : World) :
  Shlex.split (PyStr.strip command) = Ret parts →
  length parts < 2 →
  handle_prompt env tools command agent w
  = (Ret tt, printed ("Usage: /prompt <name> " +:+ dq +:+ "args>" +:+ dq) w)
  ∧ handle_resource env command w
    = (Ret tt, printed "Usage: /resource <name>" w).
Proof.
  intros Hsplit Hlen.
  unfold handle_prompt, handle_resource, bind, lift. rewrite Hsplit.
  destruct parts as [|x [|y parts]]; simpl in Hlen; [done|done|lia].
Qed.

End PromptListing.

(** A name the example server does not list. *)
Lemma handle_prompt_not_found_example :
  handle_prompt Example.env ["search"] "/prompt translate Paris" Example.agent
    init_world
  = (Ret tt, printed "Prompt 'translate' not found."
               (sent CallListPrompts init_world)).
Proof.
  apply (handle_prompt_not_found Example.env ["search"] _ Example.agent
           init_world "/prompt" "translate" ["Paris"] Example.prompts).
  - vm_compute; reflexivity.
  - reflexivity.
  - intros p Hp. unfold Example.prompts in Hp.
    apply elem_of_cons in Hp as [->|Hp]; [vm_compute; discriminate|].
    by apply elem_of_nil in Hp.
Defined.

(** Two declared names, two arguments. *)
Lemma bind_arguments_positional_example :
  let arguments := [mkPromptArgument "topic"; mkPromptArgument "style"] in
  let args := ["Ada Lovelace"; "short"] in
  (∀ i a v, arguments !! i = Some a → args !! i = Some v →
     bind_arguments arguments args !! pa_name a = Some v)
  ∧ (∀ k, k ∉ pa_name <$> arguments → bind_arguments arguments args !! k = None).
Proof.
  cbv zeta.
  apply (bind_arguments_positional
           [mkPromptArgument "topic"; mkPromptArgument "style"]
           ["Ada Lovelace"; "short"]).
  repeat constructor; rewrite ?elem_of_cons, ?elem_of_nil; intuition discriminate.
Defined.

(** Invoking the prompt once the connection is lost after the listing. *)
Lemma handle_prompt_unusable_rendering_example :
  let env :=
    mkEnv (Ret tt) (λ _, Ret ["search"]) (λ _, Ret Example.prompts)
      (λ _ _ _, Ret [mkPromptMessage (OtherContent "ImageContent")])
      (λ _, Ret Example.resources)
      (srv_read_resource Example.env) (srv_call_tool Example.env)
      (model_reply Example.env) in
  handle_prompt env ["search"] "/prompt summarize Paris" Example.agent init_world
  = (Ret tt,
     printed ("Prompt invocation failed: "
              +:+ "'ImageContent' object has no attribute 'text'")
       (sent (CallGetPrompt "summarize"
                (bind_arguments [mkPromptArgument "topic"] ["Paris"]))
          (sent CallListPrompts init_world))).
Proof.
  cbv zeta.
  apply (handle_prompt_unusable_rendering _ ["search"] _ Example.agent
           init_world "/prompt" "summarize" ["Paris"] Example.prompts
           (mkPrompt "summarize" (Some [mkPromptArgument "topic"]))
           [mkPromptArgument "topic"]
           (Exn AttributeError "'ImageContent' object has no attribute 'text'")).
  - vm_compute; reflexivity.
  - reflexivity.
  - vm_compute; reflexivity.
  - reflexivity.
  - reflexivity.
  - right. right. exists "ImageContent", []. split; reflexivity.
Defined.

(** The prompt of the example, on the second model call. *)
Lemma handle_prompt_answered_example :
  let w := mkWorld [] [] [] 1 ∅ 0 in
  ∃ w',
    handle_prompt Example.env ["search"] "/prompt summarize Paris"
      Example.agent w = (Ret tt, w')
    ∧ w_out w' = [nl +:+ "=== Prompt Result ==="; "Paris"]
    ∧ w_calls w'
      = [CallListPrompts;
         CallGetPrompt "summarize"
           (bind_arguments [mkPromptArgument "topic"] ["Paris"])]
    ∧ w_invokes w'
      = [mkInvocation "wiki-session"
           (ManyMessages [HumanMessage "Summarize Paris"])]
    ∧ history "wiki-session" w'
      = [with_id 0 (HumanMessage "Summarize Paris");
         with_id 1 (AIMessage (mkAIReply "Paris" []))].
Proof.
  cbv zeta.
  destruct (handle_prompt_answered Example.env ["search"]
              "/prompt summarize Paris" Example.agent
              (mkWorld [] [] [] 1 ∅ 0) "/prompt" "summarize" ["Paris"]
              Example.prompts
              (mkPrompt "summarize" (Some [mkPromptArgument "topic"]))
              [mkPromptArgument "topic"]
              "Summarize Paris" [] (mkAIReply "Paris" []))
    as (w' & Hrun & Hout & Hcalls & Hinv & Hhist).
  - intros thread l H. simpl in H. by rewrite lookup_empty in H.
  - vm_compute; reflexivity.
  - reflexivity.
  - vm_compute; reflexivity.
  - reflexivity.
  - reflexivity.
  - vm_compute; reflexivity.
  - reflexivity.
  - reflexivity.
  - exists w'. split; [exact Hrun|]. split; [exact Hout|].
    split; [exact Hcalls|]. split; [exact Hinv|exact Hhist].
Defined.

(** The listing of the example server, as [/prompts] prints it. *)
Lemma list_prompts_lines_example :
  list_prompts Example.env init_world
  = (Ret tt,
     printed_all (prompt_listing_lines Example.prompts)
       (sent CallListPrompts init_world)).
Proof. apply (list_prompts_lines Example.env init_world Example.prompts). reflexivity. Defined.

(** The command word alone. *)
Lemma missing_argument_prints_usage_example :
  handle_prompt Example.env ["search"] "/resource" Example.agent init_world
  = (Ret tt, printed ("Usage: /prompt <name> " +:+ dq +:+ "args>" +:+ dq) init_world)
  ∧ handle_resource Example.env "/resource" init_world
    = (Ret tt, printed "Usage: /resource <name>" init_world).
Proof.
  apply (missing_argument_prints_usage Example.env ["search"] Example.agent
           "/resource" ["/resource"] init_world).
  - vm_compute; reflexivity.
  - simpl; lia.
Defined.

(** ** Components of the world that a command leaves alone *)

Section Preserves.

Context {X : Type} (f : World → X).

Lemma preserves_ret {A} (a : A) : preserves f (ret a).
Proof. by intros w. Qed.

Lemma preserves_raise {A} e : preserves f (@raise A e).
Proof. by intros w. Qed.

Lemma preserves_lift {A} (o : outcome A) : preserves f (lift o).
Proof. by intros w. Qed.

Lemma preserves_bind {A B} (c : M A) (k : A → M B) :
  preserves f c → (∀ a, preserves f (k a)) → preserves f (let! x := c in k x).
Proof.
  intros Hc Hk w. unfold bind. specialize (Hc w).
  destruct (c w) as [[a|e] w1]; simpl in *; [|done].
  by rewrite Hk.
Qed.

Lemma preserves_try_except {A} (c : M A) h :
  preserves f c → (∀ e, preserves f (h e)) → preserves f (try_except c h).
Proof.
  intros Hc Hh w. unfold try_except. specialize (Hc w).
  destruct (c w) as [[a|e] w1]; simpl in *; [done|].
  by rewrite Hh.
Qed.

Lemma preserves_for_each {A} (l : list A) body :
  (∀ x, preserves f (body x)) → preserves f (for_each l body).
Proof.
  intros Hb. induction l as [|x l IH]; simpl.
  - apply preserves_ret.
  - apply preserves_bind; [apply Hb|intros _; exact IH].
Qed.

End Preserves.

Ltac preserves_auto :=
  repeat match goal with
    | |- preserves _ (bind _ _) => apply preserves_bind; [|intros ?]
    | |- preserves _ (try_except _ _) => apply preserves_try_except; [|intros ?]
    | |- preserves _ (for_each _ _) => apply preserves_for_each; intros ?
    | |- preserves _ (ret _) => apply preserves_ret
    | |- preserves _ (raise _) => apply preserves_raise
    | |- preserves _ (lift _) => apply preserves_lift
    | |- preserves _ (match ?x with _ => _ end) => destruct x
    | |- preserves _ (remote _ _) => by intros ?
    | |- preserves _ (put_checkpoint _ _) => by intros ?
    end.

Section ToolStepFrame.

Variable env : Env.
Variable tools : list string.

Lemma add_messages_out left right : preserves w_out (add_messages left right).
Proof.
  intros w. unfold add_messages.
  destruct (assign_ids (w_next_id w) left) as [l n1].
  by destruct (assign_ids n1 (convert_to_messages right)) as [r n2].
Qed.

Lemma add_messages_model left right : preserves w_model (add_messages left right).
Proof.
  intros w. unfold add_messages.
  destruct (assign_ids (w_next_id w) left) as [l n1].
  by destruct (assign_ids n1 (convert_to_messages right)) as [r n2].
Qed.

(** Running the tools prints nothing and does not call the model. *)
Lemma run_all_out calls : preserves w_out (run_all env tools calls).
Proof.
  induction calls as [|c calls IH]; simpl; [apply preserves_ret|].
  apply preserves_bind; [unfold run_one; preserves_auto|intros m].
  apply preserves_bind; [exact IH|intros ms; apply preserves_ret].
Qed.

Lemma run_all_model calls : preserves w_model (run_all env tools calls).
Proof.
  induction calls as [|c calls IH]; simpl; [apply preserves_ret|].
  apply preserves_bind; [unfold run_one; preserves_auto|intros m].
  apply preserves_bind; [exact IH|intros ms; apply preserves_ret].
Qed.

Lemma tool_step_out thread state :
  preserves w_out (graph_step env tools thread TOOL_NODE state).
Proof.
  unfold graph_step, run_node, tool_node.
  apply preserves_bind.
  { destruct (latest_ai_message _) as [m|]; [|apply preserves_raise].
    apply preserves_bind; [apply run_all_out|intros ?; apply preserves_ret]. }
  intros update. apply preserves_bind; [apply add_messages_out|intros state'].
  preserves_auto.
Qed.

Lemma tool_step_model thread state :
  preserves w_model (graph_step env tools thread TOOL_NODE state).
Proof.
  unfold graph_step, run_node, tool_node.
  apply preserves_bind.
  { destruct (latest_ai_message _) as [m|]; [|apply preserves_raise].
    apply preserves_bind; [apply run_all_model|intros ?; apply preserves_ret]. }
  intros update. apply preserves_bind; [apply add_messages_model|intros state'].
  preserves_auto.
Qed.

End ToolStepFrame.

(** ** Conversational turns *)

Section TurnExtras.

Variable env : Env.

(** X14.  A line of text answered by the model without a tool: the answer
    is printed after the prefix of the assistant, no request goes to the
    server, and the saved history grows by the user's and the assistant's
    message. *)
Theorem chat_turn_answered
    (agent : Agent) (user_input : string) (w : World) (reply : AIReply) :
  wf_world w →
  model_reply env (w_model w)
    (SystemMessage system_prompt
       :: history "wiki-session" w
          ++ [with_id (w_next_id w) (HumanMessage user_input)])
  = Ret reply →
  ai_tool_calls reply = [] →
  chat_turn env agent user_input w
  = (Ret tt,
     mkWorld (w_out w ++ ["AI: " +:+ ai_content reply]) (w_calls w)
       (w_invokes w ++ [mkInvocation "wiki-session" (OneStr user_input)])
       (S (w_model w))
       (<["wiki-session" :=
            history "wiki-session" w
            ++ [with_id (w_next_id w) (HumanMessage user_input);
                with_id (w_next_id w + 1) (AIMessage reply)]]> (w_store w))
       (w_next_id w + 1 + 1)).
Proof.
  intros Hwf Hreply Hnone. unfold chat_turn.
  erewrite try_except_bind_ret; cycle 1.
  { by apply (ainvoke_answer env (agent_tools agent) (OneStr user_input)
                "wiki-session" user_input w reply). }
  unfold try_except, last_item. rewrite last_two. reflexivity.
Qed.

(** X15.  A line of text on which the model call fails: the failure is
    printed as an error line and the turn returns; the agent was invoked
    once and nothing was sent to the server. *)
Theorem chat_turn_model_failure
    (agent : Agent) (user_input : string) (w : World) (e : exn) :
  wf_world w →
  model_reply env (w_model w)
    (SystemMessage system_prompt
       :: history "wiki-session" w
          ++ [with_id (w_next_id w) (HumanMessage user_input)])
  = Raise e →
  (chat_turn env agent user_input w).1 = Ret tt
  ∧ w_out (chat_turn env agent user_input w).2
    = w_out w ++ ["Error: " +:+ exn_str e]
  ∧ w_calls (chat_turn env agent user_input w).2 = w_calls w
  ∧ w_invokes (chat_turn env agent user_input w).2
    = w_invokes w ++ [mkInvocation "wiki-session" (OneStr user_input)].
Proof.
  intros Hwf Hreply. unfold chat_turn.
  erewrite try_except_bind_raise; cycle 1.
  { by apply (ainvoke_model_fails env (agent_tools agent) (OneStr user_input)
                "wiki-session" user_input w e). }
  done.
Qed.

(** X16.  A line of text for which the model first asks for tools and then
    answers: the graph makes one pass through the tool node and ends; the
    saved history receives the user's message, the assistant's request, one
    result per tool request and the final assistant message, in that order,
    and the final answer is what is printed. *)
Theorem chat_turn_one_tool_round
    (agent : Agent) (user_input : string) (w : World) (reply1 reply2 : AIReply) :
  wf_world w →
  model_reply env (w_model w)
    (SystemMessage system_prompt
       :: history "wiki-session" w
          ++ [with_id (w_next_id w) (HumanMessage user_input)])
  = Ret reply1 →
  ai_tool_calls reply1 ≠ [] →
  (∀ msgs, model_reply env (S (w_model w)) msgs = Ret reply2) →
  ai_tool_calls reply2 = [] →
  ∃ results answer w',
    chat_turn env agent user_input w = (Ret tt, w')
    ∧ w_out w' = w_out w ++ ["AI: " +:+ ai_content reply2]
    ∧ w_model w' = w_model w + 2
    ∧ history "wiki-session" w'
      = history "wiki-session" w
        ++ [with_id (w_next_id w) (HumanMessage user_input);
            with_id (w_next_id w + 1) (AIMessage reply1)]
        ++ results ++ [answer]
    ∧ Forall2 (λ call m, msg_role m = ToolRole
                         ∧ msg_tool_call_id m = Some (tc_id call))
        (ai_tool_calls reply1) results
    ∧ msg_role answer = AIRole
    ∧ msg_content answer = ai_content reply2
    ∧ msg_tool_calls answer = [].
Proof.
  intros Hwf Hreply1 Hcalls Hreply2 Hnone.
  pose proof (wf_history "wiki-session" w Hwf) as Hids.
  set (h := history "wiki-session" w) in *.
  set (human := with_id (w_next_id w) (HumanMessage user_input)) in *.
  set (request := with_id (w_next_id w + 1) (AIMessage reply1)).
  assert (Hrun : ∃ results answer w1,
    ainvoke env (agent_tools agent) (OneStr user_input) "wiki-session" w
    = (Ret (h ++ [human; request] ++ results ++ [answer]), w1)
    ∧ w_out w1 = w_out w
    ∧ w_model w1 = w_model w + 2
    ∧ history "wiki-session" w1 = h ++ [human; request] ++ results ++ [answer]
    ∧ Forall2 (λ call m, msg_role m = ToolRole
                         ∧ msg_tool_call_id m = Some (tc_id call))
        (ai_tool_calls reply1) results
    ∧ msg_role answer = AIRole
    ∧ msg_content answer = ai_content reply2
    ∧ msg_tool_calls answer = []).
  { rewrite (ainvoke_start env (agent_tools agent) "wiki-session"
               (OneStr user_input) w Hids) by (by repeat constructor).
    cbn [convert_to_messages stamp length]. fold h human.
    set (w0 := mkWorld _ _ _ _ _ _).
    assert (Hids0 : ids_below (w_next_id w0) (h ++ [human])).
    { unfold w0. cbn [w_next_id]. apply ids_below_app.
      - eapply ids_below_mono; [|exact Hids]. lia.
      - constructor; [|constructor]. eexists. split; [reflexivity|lia]. }
    change recursion_limit with (S (S (S 22))).
    rewrite run_graph_step by done. unfold bind at 1.
    rewrite (chat_step env (agent_tools agent) "wiki-session" (h ++ [human]) w0
               reply1 Hids0 Hreply1).
    assert (Hnext : match ai_tool_calls reply1 with
                    | [] => END | _ :: _ => TOOL_NODE end = TOOL_NODE)
      by (by destruct (ai_tool_calls reply1)).
    rewrite Hnext. cbn [fst snd].
    assert (Hreq : assistant_message w0 reply1 = request) by reflexivity.
    rewrite Hreq. set (state1 := (h ++ [human]) ++ [request]).
    set (w1 := after_chat_step _ _ _).
    assert (Hids1 : ids_below (w_next_id w1) state1).
    { unfold w1, state1, w0. cbn [after_chat_step w_next_id].
      apply ids_below_app.
      - eapply ids_below_mono; [|exact Hids0]. unfold w0. cbn [w_next_id]. lia.
      - constructor; [|constructor]. eexists. split; [reflexivity|lia]. }
    rewrite run_graph_step by done. unfold bind at 1.
    destruct (tool_step env (agent_tools agent) "wiki-session" state1 w1 request
                Hids1 (last_snoc _ _) eq_refl)
      as (results & w2 & Hstep & Hall & Hids2 & _ & Hstore2 & _).
    pose proof (tool_step_out env (agent_tools agent) "wiki-session" state1 w1)
      as Hout2.
    pose proof (tool_step_model env (agent_tools agent) "wiki-session" state1 w1)
      as Hmodel2.
    rewrite Hstep in Hout2, Hmodel2. rewrite Hstep. cbn [fst snd] in *.
    rewrite run_graph_step by done. unfold bind at 1.
    assert (Hr2 : model_reply env (w_model w2)
                    (SystemMessage system_prompt :: state1 ++ results)
                  = Ret reply2).
    { rewrite Hmodel2. apply Hreply2. }
    rewrite (chat_step env (agent_tools agent) "wiki-session" (state1 ++ results)
               w2 reply2 Hids2 Hr2).
    rewrite Hnone. cbn [fst snd]. rewrite run_graph_end. unfold ret.
    exists results, (assistant_message w2 reply2). eexists.
    assert (Hfinal : (state1 ++ results) ++ [assistant_message w2 reply2]
                     = h ++ [human; request] ++ results
                         ++ [assistant_message w2 reply2]).
    { unfold state1. by rewrite <- !app_assoc. }
    rewrite Hfinal. split; [reflexivity|].
    split; [cbn [after_chat_step w_out]; by rewrite Hout2|].
    split; [cbn [after_chat_step w_model]; rewrite Hmodel2;
            unfold w1, w0; cbn [after_chat_step w_model]; lia|].
    split; [unfold history; cbn [after_chat_step w_store];
            by rewrite lookup_insert_eq|].
    split; [|split; [done|split; [done|exact Hnone]]].
    eapply Forall2_impl; [exact Hall|]. by intros call m (? & ? & ?). }
  destruct Hrun as (results & answer & w1 & Hrun & Hout & Hmodel & Hhist & Hall
                    & Hrole & Hcontent & Htc).
  exists results, answer. unfold chat_turn.
  erewrite try_except_bind_ret by exact Hrun.
  unfold try_except, last_item.
  assert (Hlast : last (h ++ [human; request] ++ results ++ [answer]) = Some answer).
  { rewrite !app_assoc. apply last_snoc. }
  rewrite Hlast. unfold bind, ret, print. eexists. split; [reflexivity|].
  cbn [printed w_out w_model]. rewrite Hout, Hcontent.
  split; [done|]. split; [done|]. split; [exact Hhist|done].
Qed.

End TurnExtras.

(** The second model call of the example answers at once. *)
Lemma chat_turn_answered_example :
  chat_turn Example.env Example.agent "And of Italy?" (mkWorld [] [] [] 1 ∅ 0)
  = (Ret tt,
     mkWorld ["AI: Paris"] []
       [mkInvocation "wiki-session" (OneStr "And of Italy?")] 2
       (<["wiki-session" :=
            [with_id 0 (HumanMessage "And of Italy?");
             with_id 1 (AIMessage (mkAIReply "Paris" []))]]> ∅)
       2).
Proof.
  etrans.
  - apply (chat_turn_answered Example.env Example.agent "And of Italy?"
             (mkWorld [] [] [] 1 ∅ 0) (mkAIReply "Paris" [])).
    + intros thread l H. simpl in H. by rewrite lookup_empty in H.
    + reflexivity.
    + reflexivity.
  - reflexivity.
Defined.

(** A line of text once the model endpoint is unreachable. *)
Lemma chat_turn_model_failure_example :
  (chat_turn Example.env_down Example.agent "hello" init_world).1 = Ret tt
  ∧ w_out (chat_turn Example.env_down Example.agent "hello" init_world).2
    = [] ++ ["Error: model endpoint unreachable"]
  ∧ w_calls (chat_turn Example.env_down Example.agent "hello" init_world).2 = []
  ∧ w_invokes (chat_turn Example.env_down Example.agent "hello" init_world).2
    = [] ++ [mkInvocation "wiki-session" (OneStr "hello")].
Proof.
  apply (chat_turn_model_failure Example.env_down Example.agent "hello"
           init_world
           (Exn (ModelError "APIConnectionError") "model endpoint unreachable")).
  - intros thread l H. simpl in H. by rewrite lookup_empty in H.
  - reflexivity.
Defined.

(** The question of the example: one search, then the answer. *)
Lemma chat_turn_one_tool_round_example :
  ∃ results answer w',
    chat_turn Example.env Example.agent "What is the capital of France?"
      init_world = (Ret tt, w')
    ∧ w_out w' = ["AI: Paris"]
    ∧ w_model w' = 2
    ∧ history "wiki-session" w'
      = [Example.question; Example.request] ++ results ++ [answer]
    ∧ length results = 2
    ∧ msg_content answer = "Paris".
Proof.
  destruct (chat_turn_one_tool_round Example.env Example.agent
              "What is the capital of France?" init_world
              Example.first_request (mkAIReply "Paris" []))
    as (results & answer & w' & Hrun & Hout & Hmodel & Hhist & Hall & _ & Hc & _).
  - intros thread l H. simpl in H. by rewrite lookup_empty in H.
  - reflexivity.
  - discriminate.
  - intros msgs. reflexivity.
  - reflexivity.
  - exists results, answer, w'. split; [exact Hrun|]. split; [exact Hout|].
    split; [exact Hmodel|]. split; [exact Hhist|]. split; [|exact Hc].
    symmetry. exact (Forall2_length _ _ _ Hall).
Defined.

(** ** The loop *)

Section LoopExtras.

Variable env : Env.

Lemma bind_returns {A} (c : M unit) (k : M A) w :
  returns c → ∃ w1, (c ;;; k) w = k w1.
Proof.
  intros Hc. destruct (Hc w) as [a Ha]. unfold bind.
  destruct (c w) as [[a'|e] w1]; simpl in Ha; [by exists w1|discriminate].
Qed.

(** X17.  As long as no line is a [/prompts] command and the quoting of
    every [/prompt] and [/resource] command is balanced, no failure of the
    server, of the model or of a tool ends the loop: it returns at the first
    exit word, and otherwise runs until the input is used up. *)
Theorem interactive_loop_survives
    (tools : list string) (agent : Agent) (lines : list string) (w : World) :
  Forall safe_line lines →
  ((interactive_loop env tools agent lines w).1 = Ret tt
   ∨ (interactive_loop env tools agent lines w).1
     = Raise (Exn EOFError "EOF when reading a line"))
  ∧ (Exists (λ line, is_exit (PyStr.strip line) = true) lines →
     (interactive_loop env tools agent lines w).1 = Ret tt).
Proof.
  intros Hsafe. revert w.
  induction Hsafe as [|line lines Hline _ IH]; intros w.
  { split; [by right|]. by intros ?%Exists_nil. }
  cbn [interactive_loop].
  destruct (is_exit (PyStr.strip line)) eqn:Hexit.
  { split; [by left|done]. }
  assert (Hrest : Exists (λ l, is_exit (PyStr.strip l) = true) (line :: lines) →
                  Exists (λ l, is_exit (PyStr.strip l) = true) lines).
  { intros [H|H]%Exists_cons; [congruence|done]. }
  destruct Hline as [Hline|[Hnp Htok]]; [by rewrite Hexit in Hline|].
  cbv zeta in Hnp, Htok. rewrite Hnp.
  destruct (PyStr.startswith (PyStr.strip line) "/prompt") eqn:Hp.
  { destruct Htok as [parts Hparts]; [by left|].
    destruct (bind_returns
                (handle_prompt env tools (PyStr.strip line) agent)
                (interactive_loop env tools agent lines) w
                (handle_prompt_returns env tools _ agent parts Hparts))
      as [w1 ->].
    destruct (IH w1) as [H1 H2]. split; [done|]. intros H. by apply H2, Hrest. }
  destruct (PyStr.startswith (PyStr.strip line) "/resources") eqn:Hrs.
  { destruct (bind_returns (list_resources env)
                (interactive_loop env tools agent lines) w
                (list_resources_returns env)) as [w1 ->].
    destruct (IH w1) as [H1 H2]. split; [done|]. intros H. by apply H2, Hrest. }
  destruct (PyStr.startswith (PyStr.strip line) "/resource") eqn:Hr.
  { destruct Htok as [parts Hparts]; [by right|].
    destruct (bind_returns (handle_resource env (PyStr.strip line))
                (interactive_loop env tools agent lines) w
                (handle_resource_returns env _ parts Hparts)) as [w1 ->].
    destruct (IH w1) as [H1 H2]. split; [done|]. intros H. by apply H2, Hrest. }
  destruct (bind_returns (chat_turn env agent (PyStr.strip line))
              (interactive_loop env tools agent lines) w
              (chat_turn_returns env agent _)) as [w1 ->].
  destruct (IH w1) as [H1 H2]. split; [done|]. intros H. by apply H2, Hrest.
Qed.

(** X18.  A [/prompt] or [/resource] command whose quoting is not balanced
    is not reported: the error of the tokenizer leaves the loop before
    anything is printed or sent, and the lines that follow are never read. *)
Theorem unbalanced_quoting_ends_session
    (tools : list string) (agent : Agent) (line : string)
    (lines : list string) (w : World) (e : exn) :
  is_exit (PyStr.strip line) = false →
  PyStr.startswith (PyStr.strip line) "/prompts" = false →
  PyStr.startswith (PyStr.strip line) "/prompt" = true
  ∨ (PyStr.startswith (PyStr.strip line) "/resources" = false
     ∧ PyStr.startswith (PyStr.strip line) "/resource" = true) →
  Shlex.split (PyStr.strip (PyStr.strip line)) = Raise e →
  interactive_loop env tools agent (line :: lines) w = (Raise e, w).
Proof.
  intros Hexit Hnp Hcmd Hsplit. cbn [interactive_loop]. rewrite Hexit, Hnp.
  destruct Hcmd as [Hp|[Hrs Hr]].
  - rewrite Hp. unfold bind at 1, handle_prompt, bind at 1, lift.
    by rewrite Hsplit.
  - destruct (PyStr.startswith (PyStr.strip line) "/prompt").
    + unfold bind at 1, handle_prompt, bind at 1, lift. by rewrite Hsplit.
    + rewrite Hrs, Hr. unfold bind at 1, handle_resource, bind at 1, lift.
      by rewrite Hsplit.
Qed.

(** X19.  The discovery commands stay outside the conversation: listing
    prompts, listing resources and reading a resource never invoke the
    agent, never call the model, and leave the checkpoint store and the
    message ids as they were. *)
Theorem discovery_commands_leave_conversation (command : string) (w : World) :
  (same_session w (list_prompts env w).2
   ∧ w_model (list_prompts env w).2 = w_model w)
  ∧ (same_session w (list_resources env w).2
     ∧ w_model (list_resources env w).2 = w_model w)
  ∧ (same_session w (handle_resource env command w).2
     ∧ w_model (handle_resource env command w).2 = w_model w).
Proof.
  assert (Hprint : ∀ s, preserves w_model (print s)) by (by intros s w').
  split; [|split]; split.
  - apply frames_list_prompts.
  - revert w. change (preserves w_model (list_prompts env)).
    unfold list_prompts. preserves_auto; apply Hprint.
  - apply frames_list_resources.
  - revert w. change (preserves w_model (list_resources env)).
    unfold list_resources. preserves_auto; apply Hprint.
  - apply frames_handle_resource.
  - revert w. change (preserves w_model (handle_resource env command)).
    unfold handle_resource. preserves_auto; apply Hprint.
Qed.

(** X20.  Over any sequence of lines, whatever the collaborators answer,
    the history saved under the session id only grows: what was saved when
    the loop started is still the beginning of what is saved when it ends. *)
Theorem session_history_only_grows
    (tools : list string) (agent : Agent) (lines : list string) (w : World) :
  session_inv "wiki-session" [] w →
  history "wiki-session" w
    `prefix_of`
  history "wiki-session" (interactive_loop env tools agent lines w).2.
Proof.
  intros [Hwf Hth Hdom _].
  eapply inv_grows. apply keeps_interactive_loop. by constructor.
Qed.

(** X21.  A failure at start-up, of the initialization or of either of the
    two tool listings, is fatal: [main] raises it before the banner is
    printed and before any line is read. *)
Theorem startup_failure_is_fatal (lines : list string) (w : World) (e : exn) :
  srv_initialize env = Raise e
  ∨ (srv_initialize env = Ret tt
     ∧ srv_list_tools env (length (w_calls w) + 1) = Raise e)
  ∨ (srv_initialize env = Ret tt
     ∧ (∃ tools, srv_list_tools env (length (w_calls w) + 1) = Ret tools)
     ∧ srv_list_tools env (length (w_calls w) + 2) = Raise e) →
  (main env lines w).1 = Raise e
  ∧ w_out (main env lines w).2 = w_out w
  ∧ w_invokes (main env lines w).2 = w_invokes w.
Proof.
  assert (H1 : length (w_calls (sent CallInitialize w)) = length (w_calls w) + 1)
    by (cbn [sent w_calls]; by rewrite length_app).
  assert (H2 : length (w_calls (sent CallListTools (sent CallInitialize w)))
               = length (w_calls w) + 2)
    by (cbn [sent w_calls]; rewrite !length_app; cbn [length]; lia).
  intros Hfail.
  assert (Hmain : ∃ w1, main env lines w = (Raise e, w1)
                        ∧ w_out w1 = w_out w ∧ w_invokes w1 = w_invokes w).
  { destruct Hfail as [Hinit|[[Hinit Htools]|(Hinit & [tools Htools] & Hgraph)]];
      unfold main; unfold bind at 1, remote at 1; rewrite Hinit.
    - by eexists.
    - unfold bind at 1, remote at 1. rewrite H1, Htools. by eexists.
    - unfold bind at 1, remote at 1. rewrite H1, Htools.
      unfold bind at 1, create_graph, bind at 1, remote at 1.
      rewrite H2, Hgraph. by eexists. }
  destruct Hmain as (w1 & -> & Hout & Hinv). done.
Qed.

End LoopExtras.

(** A session on the example server. *)
Lemma interactive_loop_survives_example :
  let lines := ["/resources"; "/resource 2"; "hello"; "quit"] in
  ((interactive_loop Example.env_down ["search"] Example.agent lines init_world).1
   = Ret tt
   ∨ (interactive_loop Example.env_down ["search"] Example.agent lines init_world).1
     = Raise (Exn EOFError "EOF when reading a line"))
  ∧ (Exists (λ line, is_exit (PyStr.strip line) = true) lines →
     (interactive_loop Example.env_down ["search"] Example.agent lines init_world).1
     = Ret tt).
Proof.
  cbv zeta.
  apply (interactive_loop_survives Example.env_down ["search"] Example.agent
           ["/resources"; "/resource 2"; "hello"; "quit"]
           init_world).
  repeat apply Forall_cons_2; [| | | |apply Forall_nil_2].
  - right. split; [reflexivity|]. intros _. eexists. vm_compute. reflexivity.
  - right. split; [reflexivity|]. intros _. eexists. vm_compute. reflexivity.
  - right. split; [reflexivity|]. intros _. eexists. vm_compute. reflexivity.
  - left. vm_compute. reflexivity.
Defined.

(** A quote that is opened and never closed. *)
Lemma unbalanced_quoting_ends_session_example :
  interactive_loop Example.env ["search"] Example.agent
    [("/prompt summarize " +:+ dq +:+ "Ada"); "hello"; "q"] init_world
  = (Raise (Exn ValueError "No closing quotation"), init_world).
Proof.
  apply (unbalanced_quoting_ends_session Example.env ["search"] Example.agent
           ("/prompt summarize " +:+ dq +:+ "Ada") ["hello"; "q"] init_world
           (Exn ValueError "No closing quotation")).
  - vm_compute; reflexivity.
  - vm_compute; reflexivity.
  - left. vm_compute; reflexivity.
  - vm_compute; reflexivity.
Defined.

(** A session that already holds a question and the request of the model:
    both are still at the head of the history after two more lines. *)
Lemma session_history_only_grows_example :
  [Example.question; Example.request]
    `prefix_of`
  history "wiki-session"
    (interactive_loop Example.env ["search"] Example.agent
       ["And of Italy?"; "/prompt summarize Rome"; "q"] Example.requested).2.
Proof.
  apply (session_history_only_grows Example.env ["search"] Example.agent
           ["And of Italy?"; "/prompt summarize Rome"; "q"] Example.requested).
  constructor.
  - intros thread l. unfold Example.requested. cbn [w_store w_next_id].
    intros [_ <-]%lookup_singleton_Some.
    repeat constructor; [exists 0|exists 1]; (split; [reflexivity|lia]).
  - repeat constructor.
  - unfold Example.requested. cbn [w_store]. by rewrite dom_singleton.
  - apply prefix_nil.
Defined.

(** A server that cannot be initialized. *)
Lemma startup_failure_is_fatal_example :
  let env :=
    mkEnv (Raise Example.closed) (srv_list_tools Example.env)
      (srv_list_prompts Example.env) (srv_get_prompt Example.env)
      (srv_list_resources Example.env) (srv_read_resource Example.env)
      (srv_call_tool Example.env) (model_reply Example.env) in
  (main env ["hello"; "q"] init_world).1 = Raise Example.closed
  ∧ w_out (main env ["hello"; "q"] init_world).2 = []
  ∧ w_invokes (main env ["hello"; "q"] init_world).2 = [].
Proof.
  cbv zeta.
  apply (startup_failure_is_fatal _ ["hello"; "q"] init_world Example.closed).
  left. reflexivity.
Defined.
